(** * League of Legends win predictor: ingestion, feature extraction and
      scenario prediction

    A shallow embedding of [api_utils] ([getMatchDetails] and the cached
    lookups), [data_processing.processMatches], [model.trainModel],
    [model.predictByMostPlayed], the charts of [visualization] and
    [credits], followed by the properties of the pipeline that the
    specification states about them and by further properties of the code.

    Conventions.
    - A Python [int] is a [Z]; a Python [float] is represented by the
      rational it denotes, kept in lowest terms ([Qred]), so the rounding of
      binary floating point is abstracted away, and with it the
      [OverflowError] of a division whose result is beyond the range of a
      double: the numbers of a match are far inside that range.
    - A decoded JSON document is a [json] value; a JSON object is a finite
      map from strings to values.
    - A Python computation that may raise is a [Result]; one that also acts
      on the outside world (network, clock, user interface) is an [M]. *)

From Stdlib Require Import ZArith QArith Qround Qcanon Lia Permutation Ascii String.
From stdpp Require Import base option list gmap strings sorting pretty.

Set Warnings "-register-all".
Open Scope string_scope.
Open Scope list_scope.
Open Scope Z_scope.

(** ** Python values and exceptions *)

Module Py.

(** What [json.loads] (and so [Response.json]) returns. *)
Inductive json : Type :=
| JNull
| JBool (b : bool)
| JInt (z : Z)
| JFloat (q : Q)
| JStr (s : string)
| JList (l : list json)
| JDict (d : gmap string json).

(** The subclasses of [requests.exceptions.RequestException] that a
    request can end in. *)
Inductive request_error : Type :=
| ConnectionError
| Timeout
| TooManyRedirects
| HTTPError (status : nat)
| JSONDecodeError
| OtherRequestError (name : string).

Inductive exn : Type :=
| KeyError (key : string)
| TypeError
| ValueError
| IndexError
| AttributeError
| ZeroDivisionError
| RequestException (e : request_error).

Inductive Result (A : Type) : Type :=
| Ok (a : A)
| Raise (e : exn).
Arguments Ok {A} a.
Arguments Raise {A} e.

Definition rbind {A B} (r : Result A) (k : A -> Result B) : Result B :=
  match r with
  | Ok a => k a
  | Raise e => Raise e
  end.

(** [except requests.exceptions.RequestException] catches exactly these. *)
Definition is_RequestException (e : exn) : bool :=
  match e with RequestException _ => true | _ => false end.

(** *** Truthiness, [or], [==] with a string *)

Definition truthy (v : json) : bool :=
  match v with
  | JNull => false
  | JBool b => b
  | JInt z => negb (z =? 0)
  | JFloat q => negb (Qeq_bool q 0)
  | JStr s => negb (String.eqb s "")
  | JList l => match l with [] => false | _ => true end
  | JDict d => negb (bool_decide (d = ∅))
  end.

(** [a or b] *)
Definition py_or (a b : json) : json := if truthy a then a else b.

(** [v == s] for a [str] [s]: only an equal string compares equal. *)
Definition eq_str (v : json) (s : string) : bool :=
  match v with
  | JStr t => String.eqb t s
  | _ => false
  end.

(** *** Numbers *)

Inductive number : Type :=
| NInt (z : Z)
| NFloat (q : Q).

(** [bool] is a subclass of [int]. *)
Definition as_number (v : json) : option number :=
  match v with
  | JBool b => Some (NInt (if b then 1 else 0))
  | JInt z => Some (NInt z)
  | JFloat q => Some (NFloat q)
  | _ => None
  end.

Definition is_number (v : json) : bool :=
  match as_number v with Some _ => true | None => false end.

Definition to_Q (n : number) : Q :=
  match n with
  | NInt z => inject_Z z
  | NFloat q => q
  end.

(** [a + b]: numeric addition, string and list concatenation. *)
Definition py_add (a b : json) : Result json :=
  match as_number a, as_number b with
  | Some (NInt x), Some (NInt y) => Ok (JInt (x + y))
  | Some x, Some y => Ok (JFloat (Qred (to_Q x + to_Q y)))
  | _, _ =>
      match a, b with
      | JStr s, JStr t => Ok (JStr (s +:+ t))
      | JList l, JList k => Ok (JList (l ++ k))
      | _, _ => Raise TypeError
      end
  end.

(** [a / b]: true division, always a float. *)
Definition py_truediv (a b : json) : Result Q :=
  match as_number a, as_number b with
  | Some x, Some y =>
      if Qeq_bool (to_Q y) 0 then Raise ZeroDivisionError
      else Ok (Qred (to_Q x / to_Q y))
  | _, _ => Raise TypeError
  end.

(** *** [int(x)] *)

Definition digit_of (c : ascii) : option Z :=
  let n := Z.of_N (Ascii.N_of_ascii c) in
  if (48 <=? n) && (n <=? 57) then Some (n - 48) else None.

Definition is_space (c : ascii) : bool :=
  let n := Ascii.N_of_ascii c in
  (N.eqb n 32 || (N.leb 9 n && N.leb n 13))%bool%N.

Fixpoint lstrip (s : string) : string :=
  match s with
  | String c s' => if is_space c then lstrip s' else s
  | EmptyString => s
  end.

(** Decimal digits with single underscores between them, then optional
    trailing white space: [digits acc s prev_digit]. *)
Fixpoint digits (acc : Z) (prev_digit : bool) (s : string) : option Z :=
  match s with
  | EmptyString => if prev_digit then Some acc else None
  | String c s' =>
      match digit_of c with
      | Some d => digits (10 * acc + d) true s'
      | None =>
          if prev_digit then
            if Ascii.eqb c "_"%char then
              match s' with
              | String c' _ =>
                  match digit_of c' with
                  | Some _ => digits acc false s'
                  | None => None
                  end
              | EmptyString => None
              end
            else if String.eqb (lstrip s) "" then Some acc else None
          else None
      end
  end.

(** [int(s)] for an ASCII string in base 10. *)
Definition int_of_str (s : string) : option Z :=
  match lstrip s with
  | String "-"%char s' => Z.opp <$> digits 0 false s'
  | String "+"%char s' => digits 0 false s'
  | s' => digits 0 false s'
  end.

Definition py_int (v : json) : Result Z :=
  match v with
  | JBool b => Ok (if b then 1 else 0)
  | JInt z => Ok z
  | JFloat q => Ok (Z.quot (Qnum q) (Z.pos (Qden q)))
  | JStr s => match int_of_str s with Some z => Ok z | None => Raise ValueError end
  | JNull | JList _ | JDict _ => Raise TypeError
  end.

(** *** Containers *)

(** [v[key]] for a string key. *)
Definition subscript (v : json) (key : string) : Result json :=
  match v with
  | JDict d => match d !! key with Some x => Ok x | None => Raise (KeyError key) end
  | _ => Raise TypeError
  end.

(** [v.get(key, default)]: only a [dict] has the method. *)
Definition py_get (v : json) (key : string) (dflt : json) : Result json :=
  match v with
  | JDict d => Ok (default dflt (d !! key))
  | _ => Raise AttributeError
  end.

(** The items a [for] loop over [v] visits: the elements of a list, the
    characters of a string, the keys of a dict (in the order of the map,
    not of insertion: the program only ever fails on such items). *)
Definition py_iter (v : json) : Result (list json) :=
  match v with
  | JList l => Ok l
  | JStr s => Ok (JStr <$> ((fun c => String c EmptyString) <$> list_ascii_of_string s))
  | JDict d => Ok (JStr <$> (map_to_list d).*1)
  | _ => Raise TypeError
  end.

End Py.

Import Py.

(** ** The outside world *)

Module World.

(** What the program does to its environment, in the order it does it:
    the HTTP requests issued so far, the seconds spent in [time.sleep],
    the messages sent to [st.error] and to [print] (each kept as the match
    id and the exception the f-string is formatted from), and the values
    handed to the progress bar. *)
Record t : Type := mk {
  requests_made : nat;
  slept : nat;
  st_errors : list (string * exn);
  stdout : list (string * exn);
  progress_reports : list Q
}.

Definition init : t := mk 0 0 [] [] [].

Definition count_request (w : t) : t :=
  mk (S (requests_made w)) (slept w) (st_errors w) (stdout w) (progress_reports w).
Definition sleep (secs : nat) (w : t) : t :=
  mk (requests_made w) (slept w + secs) (st_errors w) (stdout w) (progress_reports w).
Definition show_error (msg : string * exn) (w : t) : t :=
  mk (requests_made w) (slept w) (st_errors w ++ [msg]) (stdout w) (progress_reports w).
Definition write (msg : string * exn) (w : t) : t :=
  mk (requests_made w) (slept w) (st_errors w) (stdout w ++ [msg]) (progress_reports w).
Definition report (p : Q) (w : t) : t :=
  mk (requests_made w) (slept w) (st_errors w) (stdout w) (progress_reports w ++ [p]).

End World.

(** A computation that may raise and acts on a state [S]. The effects made
    before an exception is raised stay. *)
Definition ST (S A : Type) : Type := S -> Result A * S.

Definition ret {S A} (a : A) : ST S A := fun w => (Ok a, w).

Definition bind {S A B} (m : ST S A) (k : A -> ST S B) : ST S B :=
  fun w =>
    match m w with
    | (Ok a, w') => k a w'
    | (Raise e, w') => (Raise e, w')
    end.

Definition lift {S A} (r : Result A) : ST S A := fun w => (r, w).

(** [try: body / except <class> as e: handler e] *)
Definition try_except {S A} (body : ST S A) (catches : exn -> bool)
    (handler : exn -> ST S A) : ST S A :=
  fun w =>
    match body w with
    | (Ok a, w') => (Ok a, w')
    | (Raise e, w') => if catches e then handler e w' else (Raise e, w')
    end.

#[global] Instance Result_ret : MRet Result := fun _ a => Ok a.
#[global] Instance Result_bind : MBind Result := fun _ _ k r => rbind r k.
#[global] Instance ST_ret {S} : MRet (ST S) := fun _ a => ret a.
#[global] Instance ST_bind {S} : MBind (ST S) := fun _ _ k m => bind m k.

(** Computations on the outside world. *)
Abbreviation M := (ST World.t).

(** ** api_utils.py *)

Module api_utils.

(** An HTTP response as far as the program looks at it: the status code
    and the decoded body ([None] when the body is not JSON). *)
Record Response : Type := {
  status_code : nat;
  body : option json
}.

(** What [requests.get] ends in. *)
Inductive get_outcome : Type :=
| Responds (r : Response)
| Fails (e : request_error).

(** The module's configuration and the network behind [requests.get]:
    the answer may depend on the URL and on how many requests were issued
    before this one. *)
Class Network : Type := {
  CONTINENT : string;
  API_KEY : string;
  network : nat -> string -> get_outcome
}.

Definition requests_get {net : Network} (url : string) : M Response :=
  fun w =>
    match network (World.requests_made w) url with
    | Responds r => (Ok r, World.count_request w)
    | Fails e => (Raise (RequestException e), World.count_request w)
    end.

Definition time_sleep (secs : nat) : M unit :=
  fun w => (Ok tt, World.sleep secs w).

(** [Response.raise_for_status]: client and server error codes raise. *)
Definition raise_for_status (r : Response) : M unit :=
  if (400 <=? status_code r)%nat && (status_code r <? 600)%nat
  then lift (Raise (RequestException (HTTPError (status_code r))))
  else ret tt.

Definition response_json (r : Response) : M json :=
  match body r with
  | Some v => ret v
  | None => lift (Raise (RequestException JSONDecodeError))
  end.

Definition st_error (msg : string * exn) : M unit :=
  fun w => (Ok tt, World.show_error msg w).

Definition print (msg : string * exn) : M unit :=
  fun w => (Ok tt, World.write msg w).

Definition match_url {net : Network} (match_id : string) : string :=
  "https://" +:+ CONTINENT +:+ ".api.riotgames.com/lol/match/v5/matches/"
    +:+ match_id +:+ "?api_key=" +:+ API_KEY.

Definition getMatchDetails {net : Network} (match_id : string) : M json :=
  let url := match_url match_id in
  try_except
    (response ← requests_get url;
     time_sleep 1;;
     raise_for_status response;;
     response_json response)
    is_RequestException
    (fun e =>
       st_error (match_id, e);;
       print (match_id, e);;
       ret (JDict ∅)).

End api_utils.

(** ** data_processing.py *)

Module data_processing.
Import api_utils.

(** One element of [data]: the dict appended for a match. *)
Record row : Type := {
  champion : json;
  win : json;
  kills : json;
  deaths : json;
  assists : json;
  kda : Q;
  role : json;
  duration : Q;
  gold : json;
  damage : json;
  farm : json;
  vision : json;
  first_blood : Z
}.

(** The dict display of lines 54-68; its entries are evaluated in order. *)
Definition build_row (player m : json) : Result row :=
  champion ← subscript player "championName";
  win ← subscript player "win";
  kills ← subscript player "kills";
  deaths ← subscript player "deaths";
  assists ← subscript player "assists";
  kda ← (k ← subscript player "kills";
          a ← subscript player "assists";
          s ← py_add k a;
          d ← subscript player "deaths";
          py_truediv s (py_or d (JInt 1)));
  role ← subscript player "teamPosition";
  duration ← (info ← subscript m "info";
               secs ← subscript info "gameDuration";
               py_truediv secs (JInt 60));
  gold ← py_get player "goldEarned" (JInt 0);
  damage ← py_get player "totalDamageDealtToChampions" (JInt 0);
  farm ← py_get player "totalMinionsKilled" (JInt 0);
  vision ← py_get player "visionScore" (JInt 0);
  first_blood ← (fb ← py_get player "firstBloodKill" (JBool false) ; py_int fb);
  Ok {| champion := champion; win := win; kills := kills; deaths := deaths;
        assists := assists; kda := kda; role := role; duration := duration;
        gold := gold; damage := damage; farm := farm; vision := vision;
        first_blood := first_blood |}.

(** The inner [for player in ...] loop: the first participant whose
    [puuid] is the target appends one row and breaks. *)
Fixpoint scan_players (puuid : string) (m : json) (players : list json)
    (data : list row) : Result (list row) :=
  match players with
  | [] => Ok data
  | player :: rest =>
      p ← subscript player "puuid";
      if eq_str p puuid then
        r ← build_row player m;
        Ok (data ++ [r])
      else scan_players puuid m rest data
  end.

(** Lines 51-70 for one fetched record. *)
Definition scan_match (puuid : string) (m : json) (data : list row) : Result (list row) :=
  info ← py_get m "info" (JDict ∅);
  participants ← py_get info "participants" (JList []);
  players ← py_iter participants;
  scan_players puuid m players data.

Definition progress (value : Q) : M unit :=
  fun w => (Ok tt, World.report value w).

(** The [for i, match_id in enumerate(matches)] loop, from index [i] on;
    [total] is [len(matches)]. *)
Fixpoint process_loop {net : Network} (puuid : string) (total i : nat)
    (matches : list string) (data : list row) : M (list row) :=
  match matches with
  | [] => ret data
  | match_id :: rest =>
      m ← getMatchDetails match_id;
      data' ← lift (scan_match puuid m data);
      fraction ← lift (py_truediv (JInt (Z.of_nat i + 1)) (JInt (Z.of_nat total)));
      progress fraction;;
      process_loop puuid total (S i) rest data'
  end.

(** [pd.DataFrame(data)] keeps the rows in order; the progress bar is the
    world's. *)
Definition processMatches {net : Network} (puuid : string) (matches : list string)
    : M (list row) :=
  process_loop puuid (length matches) 0 matches [].

End data_processing.

(** ** model.py *)

Module model.

Definition ROLE_MAPPING : gmap string string :=
  list_to_map
    [("UTILITY", "Suporte"); ("BOTTOM", "ADC"); ("TOP", "TOP");
     ("JUNGLE", "Jungle"); ("MIDDLE", "MID")].

(** *** The feature table

    [trainModel] and [predictByMostPlayed] are read on tables whose cells
    have the types of the specification's MatchFeatureRow: strings for
    champion and role, a boolean for win, numbers elsewhere. *)
Record MatchFeatureRow : Type := {
  champion : string;
  win : bool;
  kills : Z;
  deaths : Z;
  assists : Z;
  kda : Q;
  role : string;
  duration : Q;
  gold : Z;
  damage : Z;
  farm : Z;
  vision : Z;
  first_blood : Z
}.

(** The typed reading of a row built by [processMatches], when its cells
    have those types. *)
Definition of_row (r : data_processing.row) : option MatchFeatureRow :=
  match data_processing.champion r, data_processing.win r,
        data_processing.kills r, data_processing.deaths r,
        data_processing.assists r, data_processing.role r,
        data_processing.gold r, data_processing.damage r,
        data_processing.farm r, data_processing.vision r with
  | JStr c, JBool w, JInt k, JInt d, JInt a, JStr ro, JInt g, JInt dm, JInt f, JInt v =>
      Some {| champion := c; win := w; kills := k; deaths := d; assists := a;
              kda := data_processing.kda r; role := ro;
              duration := data_processing.duration r;
              gold := g; damage := dm; farm := f; vision := v;
              first_blood := data_processing.first_blood r |}
  | _, _, _, _, _, _, _, _, _, _ => None
  end.

(** [df[name]]: [pd.DataFrame([])] has no columns at all. The key of the
    [KeyError] is the label asked for; where the library looks up several
    labels at once, as [get_dummies] does, its message names them all. *)
Definition column {A} (name : string) (f : MatchFeatureRow -> A)
    (df : list MatchFeatureRow) : Result (list A) :=
  match df with
  | [] => Raise (KeyError name)
  | _ => Ok (f <$> df)
  end.

(** *** pandas *)

(** The distinct values of a column, in order of first appearance. *)
Fixpoint unique (l : list string) : list string :=
  match l with
  | [] => []
  | v :: l' => v :: filter (fun u => u ≠ v) (unique l')
  end.

Definition occurrences (v : string) (l : list string) : nat :=
  length (filter (fun u => u = v) l).

(** [Series.value_counts()]: each distinct value with its count, the most
    frequent first; values with equal counts stay in order of first
    appearance (the sort is an insertion sort, as numpy's is on short
    arrays). *)
Fixpoint insert_count (a : string * nat) (sorted : list (string * nat))
    : list (string * nat) :=
  match sorted with
  | [] => [a]
  | b :: rest =>
      if decide (b.2 <= a.2)%nat then a :: b :: rest
      else b :: insert_count a rest
  end.

Definition sort_values_descending (counts : list (string * nat)) : list (string * nat) :=
  foldr insert_count [] counts.

Definition value_counts (l : list string) : list (string * nat) :=
  sort_values_descending ((fun v => (v, occurrences v l)) <$> unique l).

(** [.head(n).index] *)
Definition head_index (n : nat) (counts : list (string * nat)) : list string :=
  (take n counts).*1.

(** [Series.mean()] of a non-empty column. *)
Definition mean (l : list Q) : Q :=
  Qred (foldr Qplus 0%Q l / inject_Z (Z.of_nat (length l))).

(** A numeric table: column labels and rows of cells. A boolean cell is
    taken at its numeric value. *)
Record Frame : Type := {
  columns : list string;
  rows : list (list Q)
}.

Definition Q_of_bool (b : bool) : Q := if b then 1%Q else 0%Q.

Definition other_columns : list string :=
  ["win"; "kills"; "deaths"; "assists"; "kda"; "duration"; "gold"; "damage";
   "farm"; "vision"; "first_blood"].

Definition other_cells (r : MatchFeatureRow) : list Q :=
  [Q_of_bool (win r); inject_Z (kills r); inject_Z (deaths r); inject_Z (assists r);
   kda r; duration r; inject_Z (gold r); inject_Z (damage r); inject_Z (farm r);
   inject_Z (vision r); inject_Z (first_blood r)].

(** The categories of a column: its distinct values, sorted. *)
Definition categories (l : list string) : list string :=
  merge_sort String.le (unique l).

Definition indicators (value : string) (cats : list string) : list Q :=
  (fun c => Q_of_bool (bool_decide (value = c))) <$> cats.

(** [pd.get_dummies(df, columns=['champion', 'role'])]: the other columns
    first, then one indicator column per category of each encoded column. *)
Definition get_dummies (df : list MatchFeatureRow) : Result Frame :=
  champions ← column "champion" champion df;
  roles ← column "role" role df;
  let champion_cats := categories champions in
  let role_cats := categories roles in
  Ok {| columns := other_columns
                     ++ (String.append "champion_" <$> champion_cats)
                     ++ (String.append "role_" <$> role_cats);
        rows := (fun r => other_cells r
                            ++ indicators (champion r) champion_cats
                            ++ indicators (role r) role_cats) <$> df |}.

(** [frame.drop(label, axis=1)] *)
Definition drop_column (label : string) (frame : Frame) : Result Frame :=
  if bool_decide (label ∈ columns frame) then
    Ok {| columns := filter (fun c => c ≠ label) (columns frame);
          rows := (fun cells =>
                     (filter (fun cv => cv.1 ≠ label) (zip (columns frame) cells)).*2)
                  <$> rows frame |}
  else Raise (KeyError label).

(** [frame[label]] *)
Definition get_column (label : string) (frame : Frame) : Result (list Q) :=
  match list_find (fun c => c = label) (columns frame) with
  | Some (i, _) => Ok ((fun cells => default 0%Q (cells !! i)) <$> rows frame)
  | None => Raise (KeyError label)
  end.

(** [.iloc[positions]] *)
Definition iloc {A} (l : list A) (positions : list nat) : Result (list A) :=
  mapM (fun i => match l !! i with Some a => Ok a | None => Raise IndexError end) positions.

(** *** numpy and scikit-learn

    The generator behind [np.random.RandomState], the shuffle it drives and
    the random forest are the libraries'; the program relies on these
    operations of theirs. [permutation g n] shuffles the positions
    [0 .. n-1]. [predict_proba] returns one row of class probabilities per
    row it is given, with as many entries as the forest saw classes. *)
Class Sklearn : Type := {
  rng : Type;
  RandomState : Z -> rng;
  permutation : rng -> nat -> list nat * rng;
  permutation_spec : forall g n, (permutation g n).1 ≡ₚ seq 0 n;
  classifier : Type;
  forest_fit : rng -> Frame -> list Q -> classifier * rng;
  predict_proba : classifier -> list (string * Q) -> Result (list (list Q))
}.

(** [check_random_state]: an integer seeds a generator of its own and
    leaves the global one alone; [None] uses the global one. *)
Definition check_random_state {sk : Sklearn} {A} (random_state : option Z)
    (use : ST rng A) : ST rng A :=
  match random_state with
  | Some seed => fun g => ((use (RandomState seed)).1, g)
  | None => use
  end.

(** [train_test_split(x, y, test_size=..., random_state=...)]: the test
    part is the first [ceil(test_size * n)] positions of the shuffle, the
    training part the rest. *)
Definition train_test_split {sk : Sklearn} (x : Frame) (y : list Q) (test_size : Q)
    (random_state : option Z) : ST rng (Frame * Frame * list Q * list Q) :=
  let n_samples := length (rows x) in
  let n_test := Z.to_nat (Qceiling (test_size * inject_Z (Z.of_nat n_samples))) in
  let n_train := (n_samples - n_test)%nat in
  if (n_train =? 0)%nat then lift (Raise ValueError)
  else
    check_random_state random_state
      (fun g =>
         let '(perm, g') := permutation g n_samples in
         let ind_test := take n_test perm in
         let ind_train := take n_train (drop n_test perm) in
         (x_train ← iloc (rows x) ind_train;
          x_test ← iloc (rows x) ind_test;
          y_train ← iloc y ind_train;
          y_test ← iloc y ind_test;
          Ok ({| columns := columns x; rows := x_train |},
              {| columns := columns x; rows := x_test |},
              y_train, y_test),
          g')).

(** [RandomForestClassifier(random_state=...).fit(x, y)] *)
Definition RandomForestClassifier_fit {sk : Sklearn} (random_state : option Z)
    (x : Frame) (y : list Q) : ST rng classifier :=
  check_random_state random_state
    (fun g => let '(m, g') := forest_fit g x y in (Ok m, g')).

Definition trainModel {sk : Sklearn} (df : list MatchFeatureRow)
    : ST rng (classifier * Frame * Frame * list Q * list Q * Frame) :=
  df_encoded ← lift (get_dummies df);
  x ← lift (drop_column "win" df_encoded);
  y ← lift (get_column "win" df_encoded);
  '(x_train, x_test, y_train, y_test) ← train_test_split x y (1 # 5) (Some 42);
  model ← RandomForestClassifier_fit (Some 42) x_train y_train;
  mret (model, x_train, x_test, y_train, y_test, df_encoded).

(** *** Scenario prediction *)

(** [pd.DataFrame(np.zeros((1, len(columns))), columns=columns)]: a table
    of one row, kept as its labelled cells. *)
Definition zeros (cols : list string) : list (string * Q) :=
  (fun c => (c, 0%Q)) <$> cols.

(** [entry[label] = value]: every column with that label is overwritten;
    a label the table does not have is added as a new last column. *)
Definition setitem (entry : list (string * Q)) (label : string) (value : Q)
    : list (string * Q) :=
  if bool_decide (label ∈ entry.*1) then
    (fun cv => if bool_decide (cv.1 = label) then (cv.1, value) else cv) <$> entry
  else entry ++ [(label, value)].

(** Lines 111-124: the hypothetical example for one champion and lane. *)
Definition synthetic_entry (cols : list string) (kda_average time_average : Q)
    (champ role : string) : list (string * Q) :=
  let entry := zeros cols in
  let entry := setitem entry "kda" kda_average in
  let entry := setitem entry "duration" time_average in
  let entry :=
    if bool_decide ("champion_" +:+ champ ∈ entry.*1)
    then setitem entry ("champion_" +:+ champ) 1%Q else entry in
  let entry :=
    if bool_decide ("role_" +:+ role ∈ entry.*1)
    then setitem entry ("role_" +:+ role) 1%Q else entry in
  entry.

(** [l[i]] *)
Definition getitem {A} (l : list A) (i : nat) : Result A :=
  match l !! i with
  | Some a => Ok a
  | None => Raise IndexError
  end.

(** A [for] loop whose body may raise, over an accumulator. *)
Fixpoint for_each {A B} (l : list A) (body : A -> B -> Result B) (acc : B) : Result B :=
  match l with
  | [] => Ok acc
  | a :: l' => acc' ← body a acc; for_each l' body acc'
  end.

Definition predictByMostPlayed {sk : Sklearn} (model : classifier) (x : Frame)
    (df : list MatchFeatureRow) : Result (list (string * string * Q)) :=
  champions ← column "champion" champion df;
  let top_champions := head_index 3 (value_counts champions) in
  roles ← column "role" role df;
  let top_roles := head_index 2 (value_counts roles) in
  kdas ← column "kda" kda df;
  let kda_average := mean kdas in
  durations ← column "duration" duration df;
  let time_average := mean durations in
  for_each top_champions
    (fun champ predictions =>
       for_each top_roles
         (fun role predictions =>
            let entry := synthetic_entry (columns x) kda_average time_average champ role in
            proba ← predict_proba model entry;
            first ← getitem proba 0;
            positive ← getitem first 1;
            let prob := Qred (positive * 100) in
            let role_name := default role (ROLE_MAPPING !! role) in
            Ok (predictions ++ [(champ, role_name, prob)]))
         predictions)
    [].

End model.

(** ** api_utils.py: the cached lookups *)

Module api_lookup.
Import api_utils.

(** The process-wide state the lookups act on: the outside world and the
    two tables [st.cache_data] keeps, one per decorated function, from the
    call's arguments to the value returned. *)
Record Session : Type := {
  world : World.t;
  puuid_cache : gmap (string * string) json;
  matches_cache : gmap (string * Z) json
}.

Definition with_world (w : World.t) (s : Session) : Session :=
  {| world := w; puuid_cache := puuid_cache s; matches_cache := matches_cache s |}.

Definition with_puuid_cache (c : gmap (string * string) json) (s : Session) : Session :=
  {| world := world s; puuid_cache := c; matches_cache := matches_cache s |}.

Definition with_matches_cache (c : gmap (string * Z) json) (s : Session) : Session :=
  {| world := world s; puuid_cache := puuid_cache s; matches_cache := c |}.

(** A computation on the world, run inside a session. *)
Definition in_world {A} (m : M A) : ST Session A :=
  fun s => let '(r, w) := m (world s) in (r, with_world w s).

(** [@st.cache_data]: a call whose arguments are in the table returns the
    stored value and does not run the body; otherwise the body runs, and the
    value it returns is stored. A call that raises stores nothing. *)
Definition cache_data {K A} `{Countable K} (table : Session -> gmap K A)
    (store : gmap K A -> Session -> Session) (key : K) (body : ST Session A)
    : ST Session A :=
  fun s =>
    match table s !! key with
    | Some v => (Ok v, s)
    | None =>
        match body s with
        | (Ok v, s') => (Ok v, store (<[key := v]> (table s')) s')
        | (Raise e, s') => (Raise e, s')
        end
    end.

Definition account_url {net : Network} (player_name tag_line : string) : string :=
  "https://" +:+ CONTINENT +:+ ".api.riotgames.com/riot/account/v1/accounts/by-riot-id/"
    +:+ player_name +:+ "/" +:+ tag_line +:+ "?api_key=" +:+ API_KEY.

Definition getPUUID {net : Network} (player_name tag_line : string) : ST Session json :=
  cache_data puuid_cache with_puuid_cache (player_name, tag_line)
    (let url := account_url player_name tag_line in
     response ← in_world (requests_get url);
     in_world (response_json response)).

Definition matches_url {net : Network} (puuid : string) (quant : Z) : string :=
  "https://" +:+ CONTINENT +:+ ".api.riotgames.com/lol/match/v5/matches/by-puuid/"
    +:+ puuid +:+ "/ids?start=0&count=" +:+ pretty quant +:+ "&api_key=" +:+ API_KEY.

Definition getMatches {net : Network} (puuid : string) (quant : Z) : ST Session json :=
  cache_data matches_cache with_matches_cache (puuid, quant)
    (let url := matches_url puuid quant in
     response ← in_world (requests_get url);
     in_world (response_json response)).

End api_lookup.

(** ** Streamlit widgets *)

Module streamlit.

(** What a script puts on the page, in order. The markup handed to
    [st.markdown] is kept by name, a chart by the data it plots; a missing
    label ([NaN]) is [None]. *)
Inductive widget : Type :=
| Subheader (text : string)
| Write (text : string)
| Markdown (name : string)
| Button (key : string)
| Tabs (titles : list string)
| InTab (index : nat) (content : list widget)
| Expander (label : string) (content : list widget)
| BarChart (x : list string) (y : list Q) (title : string)
| PieChart (names : list (option string)) (values : list Q) (title : string).

Definition render (w : widget) : ST (list widget) unit :=
  fun page => (Ok tt, page ++ [w]).

End streamlit.

(** ** visualization.py *)

Module visualization.
Import model streamlit.

(** [df.groupby('champion')['win'].mean()]: one entry per champion, the
    champions in sorted order, each with the mean of its [win] cells. *)
Definition groupby_champion_win_mean (df : list MatchFeatureRow) : Result (list (string * Q)) :=
  champions ← column "champion" champion df;
  Ok ((fun c =>
         (c, mean (Q_of_bool <$> (win <$> filter (fun r => champion r = c) df))))
      <$> categories champions).

(** [Series.sort_values(ascending=True)], as an insertion sort: entries
    with equal values stay in the order they had. The library's default
    sort may order ties otherwise; no property below depends on their
    order. *)
Fixpoint insert_value (a : string * Q) (sorted : list (string * Q)) : list (string * Q) :=
  match sorted with
  | [] => [a]
  | b :: rest =>
      if Qle_bool a.2 b.2 then a :: b :: rest
      else b :: insert_value a rest
  end.

Definition sort_values_ascending (series : list (string * Q)) : list (string * Q) :=
  foldr insert_value [] series.

(** [series * 100] *)
Definition times_100 (series : list (string * Q)) : list (string * Q) :=
  (fun cv => (cv.1, Qred (cv.2 * 100))) <$> series.

Definition show_winrate_by_champion (df : list MatchFeatureRow) : ST (list widget) unit :=
  render (Subheader "🏆 Taxa de Vitória por Campeão");;
  means ← lift (groupby_champion_win_mean df);
  let win_rate := times_100 (sort_values_ascending means) in
  let fig_bar :=
    BarChart (take 10 win_rate).*1 (take 10 win_rate).*2
      "Top 10 Campeões - Maior Taxa de Vitória" in
  render fig_bar.

(** [index.map(ROLE_MAPPING)]: a value the dict does not have maps to a
    missing label. *)
Definition index_map (mapping : gmap string string) (index : list string)
    : list (option string) :=
  (fun v => mapping !! v) <$> index.

Definition show_role_distribution (df : list MatchFeatureRow) : ST (list widget) unit :=
  render (Subheader "📊 Distribuição de Lanes");;
  roles ← lift (column "role" role df);
  let role_distribution := value_counts roles in
  let fig_roles :=
    PieChart (index_map ROLE_MAPPING role_distribution.*1)
      ((fun cv => inject_Z (Z.of_nat cv.2)) <$> role_distribution)
      "Distribuição de Lanes" in
  render fig_roles.

(** The body of the loop of [show_lane_predictions] for one lane: what
    goes into its tab. *)
Definition lane_content (results : list (string * string * Q)) (lane : string)
    : list widget :=
  let name := default lane (ROLE_MAPPING !! lane) in
  let lane_results := filter (fun r => r.1.2 = name) results in
  Subheader ("Previsões para a Lane: " +:+ name)
  :: match lane_results with
     | [] => [Write "Nenhuma previsão disponível para esta lane."]
     | _ =>
         [PieChart ((fun r => Some r.1.1) <$> lane_results) (snd <$> lane_results)
            ("Chances de Vitória - " +:+ name)]
     end.

Definition show_lane_predictions {sk : Sklearn} (forest : classifier) (x_train : Frame)
    (df : list MatchFeatureRow) : ST (list widget) unit :=
  render (Subheader "🤖 Previsão de Chances de Vitória por Lane");;
  results ← lift (predictByMostPlayed forest x_train df);
  roles ← lift (column "role" role df);
  let lanes := unique roles in
  render (Tabs ((fun lane => default lane (ROLE_MAPPING !! lane)) <$> lanes));;
  foldr (fun step rest => step;; rest) (mret tt)
    (imap (fun i lane => render (InTab i (lane_content results lane))) lanes).

End visualization.

(** ** credits.py *)

Module credits.
Import streamlit.

(** The page and [st.session_state]. *)
Record App : Type := {
  page : list widget;
  session_state : gmap string json
}.

(** What the visitor did to the two buttons before this run of the script:
    [st.button] answers [True] in the run that follows a click. *)
Record Clicks : Type := {
  credit_btn : bool;
  close_credits_btn : bool
}.

(** How a run of the function ends: it returns, or [st.rerun()] stops the
    script and starts it again. *)
Inductive ending : Type :=
| Returns
| Reruns.

Definition put (w : widget) (app : App) : App :=
  {| page := page app ++ [w]; session_state := session_state app |}.

Definition assign (key : string) (v : json) (app : App) : App :=
  {| page := page app; session_state := <[key := v]> (session_state app) |}.

(** [show_credits_button]: the style sheet, then the button; the answer of
    the button is returned. *)
Definition show_credits_button (clicks : Clicks) (app : App) : bool * App :=
  (credit_btn clicks, put (Button "credit_btn") (put (Markdown "credit_btn_css") app)).

(** [st.session_state["show_credits"]] once the key is there. *)
Definition show_credits (app : App) : json :=
  default JNull (session_state app !! "show_credits").

Definition display_credits_if_active (clicks : Clicks) (app : App) : ending * App :=
  let app :=
    if bool_decide (session_state app !! "show_credits" = None)
    then assign "show_credits" (JBool false) app else app in
  let '(clicked, app) := show_credits_button clicks app in
  let app :=
    if clicked
    then assign "show_credits" (JBool (negb (truthy (show_credits app)))) app
    else app in
  if truthy (show_credits app) then
    let content := [Markdown "credits_html"; Button "close_credits_btn"] in
    let app := put (Expander "Créditos" content) app in
    if close_credits_btn clicks
    then (Reruns, assign "show_credits" (JBool false) app)
    else (Returns, app)
  else (Returns, app).

End credits.

(** ** Vocabulary of the properties *)

Module Spec.
Import api_utils data_processing.

(** A client or server error status, the ones [raise_for_status] raises on. *)
Definition error_status (r : Response) : bool :=
  (400 <=? status_code r)%nat && (status_code r <? 600)%nat.

(** The request ended in a transport error or in an HTTP error status. *)
Definition transport_or_http_error (o : get_outcome) : bool :=
  match o with
  | Fails _ => true
  | Responds r => error_status r
  end.

(** The world after a failure was shown and printed. *)
Definition logged (match_id : string) (e : exn) (w : World.t) : World.t :=
  World.write (match_id, e) (World.show_error (match_id, e) w).

(** The record a call of [getMatchDetails] hands back when [n] requests
    were issued before it. *)
Definition record_at {net : Network} (n : nat) (match_id : string) : json :=
  match (getMatchDetails match_id (World.mk n 0 [] [] [])).1 with
  | Ok v => v
  | Raise _ => JDict ∅
  end.

(** The participant list of a record, empty where the record has none. *)
Definition participants (m : json) : list json :=
  match m with
  | JDict d =>
      match d !! "info" with
      | Some (JDict info) =>
          match info !! "participants" with
          | Some (JList players) => players
          | _ => []
          end
      | _ => []
      end
  | _ => []
  end.

(** The participant is the target player. *)
Definition is_target (puuid : string) (player : json) : bool :=
  match player with
  | JDict p =>
      match p !! "puuid" with
      | Some v => eq_str v puuid
      | None => false
      end
  | _ => false
  end.

Definition has_key (d : gmap string json) (key : string) : bool :=
  bool_decide (is_Some (d !! key)).

Definition has_number (d : gmap string json) (key : string) : bool :=
  match d !! key with
  | Some v => is_number v
  | None => false
  end.

Definition number_if_present (d : gmap string json) (key : string) : bool :=
  match d !! key with
  | Some v => is_number v
  | None => true
  end.

(** The fields read by subscript are there and the ones used in arithmetic
    are numbers. Gold, damage, farm, vision and first blood may be absent;
    first blood, where present, is a number, as [int] is applied to it. *)
Definition required_fields (player info : gmap string json) : bool :=
  has_key player "championName" && has_key player "win"
  && has_number player "kills" && has_number player "deaths"
  && has_number player "assists" && has_key player "teamPosition"
  && has_number info "gameDuration"
  && number_if_present player "firstBloodKill".

(** Every participant up to the target carries a [puuid], and the target
    carries the required fields. Participants after the target are free. *)
Fixpoint well_formed_players (puuid : string) (info : gmap string json)
    (players : list json) : bool :=
  match players with
  | [] => true
  | JDict p :: rest =>
      match p !! "puuid" with
      | Some v =>
          if eq_str v puuid then required_fields p info
          else well_formed_players puuid info rest
      | None => false
      end
  | _ :: _ => false
  end.

(** A record as the upstream API sends it, or one without [info] or
    without [participants] (the empty record of a failed fetch included). *)
Definition well_formed_match (puuid : string) (m : json) : bool :=
  match m with
  | JDict d =>
      match d !! "info" with
      | None => true
      | Some (JDict info) =>
          match info !! "participants" with
          | None => true
          | Some (JList players) => well_formed_players puuid info players
          | Some _ => false
          end
      | Some _ => false
      end
  | _ => false
  end.

(** The rows one record is to contribute: one for the first participant
    that is the target, none when there is no such participant. *)
Definition contributes (puuid : string) (m : json) (rows : list row) : Prop :=
  match find (is_target puuid) (participants m) with
  | Some player => exists r, build_row player m = Ok r /\ rows = [r]
  | None => rows = []
  end.

(** The records the successive calls of a run hand back, when [n] requests
    were issued before the run. *)
Definition records_from {net : Network} (n : nat) (matches : list string) : list json :=
  imap (fun j match_id => record_at (n + j) match_id) matches.

(** [(j + 1) / total] as the progress bar receives it. *)
Definition fraction (total j : nat) : Q :=
  Qred (inject_Z (Z.of_nat j + 1) / inject_Z (Z.of_nat total)).

(** The champions and lanes the scenario predictor loops over. *)
Definition top_champions (df : list model.MatchFeatureRow) : list string :=
  model.head_index 3 (model.value_counts (model.champion <$> df)).

Definition top_roles (df : list model.MatchFeatureRow) : list string :=
  model.head_index 2 (model.value_counts (model.role <$> df)).

(** The display name of a lane. *)
Definition role_name (role : string) : string :=
  default role (model.ROLE_MAPPING !! role).

(** The forest saw both outcomes while it was fitted: it answers a row
    with the probabilities of a loss and of a win. *)
Definition two_classes {sk : model.Sklearn} (forest : model.classifier) : Prop :=
  forall entry, exists lose win_,
    model.predict_proba forest entry = Ok [[lose; win_]]
    /\ (0 <= win_)%Q /\ (win_ <= 1)%Q.

(** The assignment guarded by [if label in entry.columns]. *)
Definition set_if_present (entry : list (string * Q)) (label : string) (v : Q)
    : list (string * Q) :=
  if bool_decide (label ∈ entry.*1) then model.setitem entry label v else entry.

(** A column label of the encoded table that is an indicator of [prefix]. *)
Definition indicator_of (prefix label : string) : bool :=
  String.prefix prefix label.

(** The message a call of [getMatchDetails] shows and prints when [n]
    requests were issued before it: none when the fetch succeeds. *)
Definition failure_at {net : Network} (n : nat) (match_id : string) : list (string * exn) :=
  match network n (match_url match_id) with
  | Fails e => [(match_id, RequestException e)]
  | Responds r =>
      if error_status r then [(match_id, RequestException (HTTPError (status_code r)))]
      else match body r with
           | Some _ => []
           | None => [(match_id, RequestException JSONDecodeError)]
           end
  end.

(** The messages of a run over [matches], and the number of its requests
    that the upstream answers. *)
Fixpoint failures_from {net : Network} (n : nat) (matches : list string)
    : list (string * exn) :=
  match matches with
  | [] => []
  | match_id :: rest => failure_at n match_id ++ failures_from (S n) rest
  end.

Fixpoint answered_from {net : Network} (n : nat) (matches : list string) : nat :=
  match matches with
  | [] => 0
  | match_id :: rest =>
      (match network n (match_url match_id) with Responds _ => 1 | Fails _ => 0 end
       + answered_from (S n) rest)%nat
  end.

(** A network whose answer to a URL does not change over time. *)
Definition stateless (net : Network) : Prop :=
  forall n url, network n url = network 0 url.

(** The forest saw one outcome only while it was fitted: it answers a row
    with a single probability. *)
Definition one_class {sk : model.Sklearn} (forest : model.classifier) : Prop :=
  forall entry, exists p, model.predict_proba forest entry = Ok [[p]].

(** The percentage the scenario predictor gets for a champion and a lane. *)
Definition scenario_percent {sk : model.Sklearn} (forest : model.classifier)
    (x : model.Frame) (df : list model.MatchFeatureRow) (champ role_ : string) : Q :=
  match model.predict_proba forest
          (model.synthetic_entry (model.columns x) (model.mean (model.kda <$> df))
             (model.mean (model.duration <$> df)) champ role_) with
  | Ok ((_ :: p :: _) :: _) => Qred (p * 100)
  | _ => 0%Q
  end.

(** The predictions of the scenario predictor, champion by champion. *)
Definition scenarios {sk : model.Sklearn} (forest : model.classifier)
    (x : model.Frame) (df : list model.MatchFeatureRow) : list (string * string * Q) :=
  flat_map
    (fun champ =>
       (fun role_ => (champ, role_name role_, scenario_percent forest x df champ role_))
       <$> top_roles df)
    (top_champions df).

(** The win rate of a champion in a table, in percent. *)
Definition win_rate (df : list model.MatchFeatureRow) (c : string) : Q :=
  Qred (model.mean
          (model.Q_of_bool
             <$> (model.win <$> filter (fun r => model.champion r = c) df)) * 100).

(** Whether a run of [display_credits_if_active] shows the credits: the
    flag of the session, toggled when the credits button was clicked. *)
Definition credits_shown (clicks : credits.Clicks) (app : credits.App) : bool :=
  xorb (truthy (credits.show_credits app)) (credits.credit_btn clicks).

(** The widgets of the credits panel. *)
Definition credits_panel : streamlit.widget :=
  streamlit.Expander "Créditos"
    [streamlit.Markdown "credits_html"; streamlit.Button "close_credits_btn"].

(** The order of a sorted series: by value. *)
Definition by_value (a b : string * Q) : Prop := (a.2 <= b.2)%Q.

End Spec.

(** ** Sample data *)

Module Sample.
Import api_utils.

Definition dict (items : list (string * json)) : json := JDict (list_to_map items).

Definition target : string := "puuid-1".

Definition ahri : json :=
  dict [("puuid", JStr "puuid-1"); ("championName", JStr "Ahri"); ("win", JBool true);
        ("kills", JInt 2); ("deaths", JInt 0); ("assists", JInt 2);
        ("teamPosition", JStr "MIDDLE"); ("goldEarned", JInt 9100)].

Definition stranger : json :=
  dict [("puuid", JStr "puuid-2"); ("championName", JStr "Garen"); ("win", JBool false);
        ("kills", JInt 1); ("deaths", JInt 4); ("assists", JInt 0);
        ("teamPosition", JStr "TOP")].

(** The target without a champion name. *)
Definition nameless : json :=
  dict [("puuid", JStr "puuid-1"); ("win", JBool true);
        ("kills", JInt 2); ("deaths", JInt 0); ("assists", JInt 2);
        ("teamPosition", JStr "MIDDLE")].

Definition match_of (players : list json) : json :=
  dict [("info", dict [("gameDuration", JInt 1800); ("participants", JList players)])].

Definition played : json := match_of [stranger; ahri; JNull].
Definition not_played : json := match_of [stranger].
Definition broken : json := match_of [nameless].

Definition ok (v : json) : get_outcome :=
  Responds {| status_code := 200; body := Some v |}.

(** The first request is answered with a match of the target, the second
    times out, the third is refused, the fourth is a match of somebody
    else, every later one a match of the target. *)
Definition riot : Network := {|
  CONTINENT := "americas";
  API_KEY := "RGAPI-0";
  network := fun n _ =>
    match n with
    | 0%nat => ok played
    | 1%nat => Fails Timeout
    | 2%nat => Responds {| status_code := 429; body := Some (dict []) |}
    | 3%nat => ok not_played
    | _ => ok played
    end
|}.

Definition ids : list string := ["BR1_1"; "BR1_2"; "BR1_3"; "BR1_4"].

(** The world in which one request was issued already, so that the next
    one times out. *)
Definition after_one_request : World.t := World.mk 1 0 [] [] [].

(** The row of the target in [played]. *)
Definition ahri_row : data_processing.row :=
  {| data_processing.champion := JStr "Ahri";
     data_processing.win := JBool true;
     data_processing.kills := JInt 2;
     data_processing.deaths := JInt 0;
     data_processing.assists := JInt 2;
     data_processing.kda := 4;
     data_processing.role := JStr "MIDDLE";
     data_processing.duration := 30;
     data_processing.gold := JInt 9100;
     data_processing.damage := JInt 0;
     data_processing.farm := JInt 0;
     data_processing.vision := JInt 0;
     data_processing.first_blood := 0 |}.

(** Three matches: a win with kills 5, deaths 1, assists 5; a loss with
    0, 3, 0; a win with 2, 0, 2. *)
Definition feature_row (champ : string) (won : bool) (k d a : Z) (kda_ : Q)
    (lane : string) : model.MatchFeatureRow :=
  {| model.champion := champ; model.win := won; model.kills := k; model.deaths := d;
     model.assists := a; model.kda := kda_; model.role := lane; model.duration := 30;
     model.gold := 9000; model.damage := 15000; model.farm := 150; model.vision := 20;
     model.first_blood := 0 |}.

Definition df : list model.MatchFeatureRow :=
  [feature_row "Ahri" true 5 1 5 10 "MIDDLE";
   feature_row "Zed" false 0 3 0 0 "MIDDLE";
   feature_row "Ahri" true 2 0 2 4 "TOP"].

(** A generator whose shuffle reverses the positions, and a forest that
    gives every row three chances in four of a win. *)
Definition sklearn : model.Sklearn := {|
  model.rng := nat;
  model.RandomState := Z.to_nat;
  model.permutation := fun g n => (rev (seq 0 n), S g);
  model.permutation_spec := fun g n => Permutation_sym (Permutation_rev (seq 0 n));
  model.classifier := unit;
  model.forest_fit := fun g _ _ => (tt, S g);
  model.predict_proba := fun _ _ => Ok [[(1 # 4)%Q; (3 # 4)%Q]]
|}.

(** A schema without a column for Zed. *)
Definition schema : list string :=
  ["kills"; "kda"; "duration"; "champion_Ahri"; "role_MIDDLE"; "role_TOP"].

(** A network that always answers with the same match of the target. *)
Definition steady : Network := {|
  CONTINENT := "americas";
  API_KEY := "RGAPI-0";
  network := fun _ _ => ok played
|}.

(** A network whose third match lacks the champion name of the target. *)
Definition faulty : Network := {|
  CONTINENT := "americas";
  API_KEY := "RGAPI-0";
  network := fun n _ => match n with 2%nat => ok broken | _ => ok played end
|}.

(** A session that starts in world [w] with both caches empty. *)
Definition session (w : World.t) : api_lookup.Session :=
  {| api_lookup.world := w; api_lookup.puuid_cache := ∅; api_lookup.matches_cache := ∅ |}.

(** The world in which two requests were issued already, so that the next
    one is refused. *)
Definition after_two_requests : World.t := World.mk 2 0 [] [] [].

(** The answer to a refused request. *)
Definition refusal : Response := {| status_code := 429; body := Some (dict []) |}.

(** The fields of [ahri]. *)
Definition ahri_fields : gmap string json :=
  list_to_map
    [("puuid", JStr "puuid-1"); ("championName", JStr "Ahri"); ("win", JBool true);
     ("kills", JInt 2); ("deaths", JInt 0); ("assists", JInt 2);
     ("teamPosition", JStr "MIDDLE"); ("goldEarned", JInt 9100)].

(** A forest fitted on wins only: one probability per row. *)
Definition one_sided : model.Sklearn := {|
  model.rng := nat;
  model.RandomState := Z.to_nat;
  model.permutation := fun g n => (rev (seq 0 n), S g);
  model.permutation_spec := fun g n => Permutation_sym (Permutation_rev (seq 0 n));
  model.classifier := unit;
  model.forest_fit := fun g _ _ => (tt, S g);
  model.predict_proba := fun _ _ => Ok [[1%Q]]
|}.

(** A table of one match. *)
Definition lone : list model.MatchFeatureRow :=
  [feature_row "Ahri" true 5 1 5 10 "MIDDLE"].

(** A page and a session with nothing on them. *)
Definition blank : credits.App :=
  {| credits.page := []; credits.session_state := ∅ |}.

(** A click on the credits button, and a click on the closing button of the
    panel. *)
Definition open_click : credits.Clicks :=
  {| credits.credit_btn := true; credits.close_credits_btn := false |}.

Definition close_click : credits.Clicks :=
  {| credits.credit_btn := false; credits.close_credits_btn := true |}.

(** The session in which the panel is open. *)
Definition opened : credits.App :=
  {| credits.page := [];
     credits.session_state := {[ "show_credits" := JBool true ]} |}.




(** A library whose forest keeps the classes it was fitted on, 0 for a loss
    and 1 for a win, and answers a row with one probability per class, the
    same for each: [predict_proba] has one column per class of
    [forest.classes_]. *)
Definition by_classes : model.Sklearn := {|
  model.rng := nat;
  model.RandomState := Z.to_nat;
  model.permutation := fun g n => (rev (seq 0 n), S g);
  model.permutation_spec := fun g n => Permutation_sym (Permutation_rev (seq 0 n));
  model.classifier := list Q;
  model.forest_fit := fun g _ y =>
    (filter (fun c => existsb (Qeq_bool c) y = true) [0%Q; 1%Q], S g);
  model.predict_proba := fun classes_ _ =>
    Ok [(fun _ => (1 # Pos.of_nat (length classes_))%Q) <$> classes_]
|}.

(** Three matches, all of them won. *)
Definition streak : list model.MatchFeatureRow :=
  [feature_row "Ahri" true 5 1 5 10 "MIDDLE";
   feature_row "Zed" true 3 3 3 2 "MIDDLE";
   feature_row "Ahri" true 2 0 2 4 "TOP"].

End Sample.

(** ** Properties of the match fetcher *)

Section MatchFetcher.
Import api_utils Spec.
Context {net : Network}.

(** One call, case by case on what the network does. *)
Lemma getMatchDetails_run (match_id : string) (w : World.t) :
  getMatchDetails match_id w =
    match network (World.requests_made w) (match_url match_id) with
    | Fails e =>
        (Ok (JDict ∅), logged match_id (RequestException e) (World.count_request w))
    | Responds r =>
        let w1 := World.sleep 1 (World.count_request w) in
        if error_status r then
          (Ok (JDict ∅), logged match_id (RequestException (HTTPError (status_code r))) w1)
        else
          match body r with
          | Some v => (Ok v, w1)
          | None => (Ok (JDict ∅), logged match_id (RequestException JSONDecodeError) w1)
          end
    end.
Proof.
  unfold getMatchDetails, try_except, mbind, ST_bind, bind, requests_get.
  destruct (network _ _) as [r|e]; simpl; [|reflexivity].
  unfold raise_for_status, error_status.
  destruct (_ && _); simpl; [reflexivity|].
  unfold response_json. destruct (body r); reflexivity.
Qed.

(** A call never raises, issues exactly one request and leaves the
    progress bar alone. *)
Lemma getMatchDetails_total (match_id : string) (w : World.t) :
  exists v w',
    getMatchDetails match_id w = (Ok v, w')
    /\ World.requests_made w' = S (World.requests_made w)
    /\ World.progress_reports w' = World.progress_reports w.
Proof.
  rewrite getMatchDetails_run.
  destruct (network _ _) as [r|e]; simpl; [|eauto].
  destruct (error_status r); [eauto|].
  destruct (body r); eauto.
Qed.

(** The record handed back depends on the world only through the number
    of requests issued before. *)
Lemma getMatchDetails_record (match_id : string) (w : World.t) :
  (getMatchDetails match_id w).1 = Ok (record_at (World.requests_made w) match_id).
Proof.
  unfold record_at. rewrite !getMatchDetails_run. simpl.
  destruct (network _ _) as [r|e]; simpl; [|reflexivity].
  destruct (error_status r); [reflexivity|].
  destruct (body r); reflexivity.
Qed.

(** The seconds slept in one call: one when the request was answered,
    whatever the status, and none when the request itself failed. *)
Lemma getMatchDetails_slept (match_id : string) (w : World.t) :
  World.slept (getMatchDetails match_id w).2 =
    (World.slept w +
       match network (World.requests_made w) (match_url match_id) with
       | Responds _ => 1
       | Fails _ => 0
       end)%nat.
Proof.
  rewrite getMatchDetails_run.
  destruct (network _ _) as [r|e]; simpl; [|lia].
  destruct (error_status r); [reflexivity|].
  destruct (body r); reflexivity.
Qed.

(** C5: a call whose request ends in a transport error or an HTTP error
    status returns the empty dict and raises nothing, and a later call
    whose request is answered with a success status and a JSON body
    returns that body. *)
Theorem getMatchDetails_failure_is_empty (match_id : string) (w : World.t) :
  transport_or_http_error (network (World.requests_made w) (match_url match_id)) = true ->
  exists w',
    getMatchDetails match_id w = (Ok (JDict ∅), w')
    /\ forall (next_id : string) (r : Response) (v : json),
         network (World.requests_made w') (match_url next_id) = Responds r ->
         error_status r = false ->
         body r = Some v ->
         exists w'', getMatchDetails next_id w' = (Ok v, w'').
Proof.
  intros Hfail. rewrite getMatchDetails_run.
  destruct (network _ _) as [r|e] eqn:Hnet; simpl in *.
  - rewrite Hfail. eexists. split; [reflexivity|].
    intros next_id r' v Hnext Hstatus Hbody.
    rewrite getMatchDetails_run, Hnext. simpl. rewrite Hstatus, Hbody. eauto.
  - eexists. split; [reflexivity|].
    intros next_id r' v Hnext Hstatus Hbody.
    rewrite getMatchDetails_run, Hnext. simpl. rewrite Hstatus, Hbody. eauto.
Qed.

End MatchFetcher.

(** ** Properties of the feature extractor *)

Section FeatureExtractor.
Import api_utils data_processing Spec.

Lemma Qeq_bool_truthy_number (v : json) (n : number) :
  as_number v = Some n -> truthy v = true -> Qeq_bool (to_Q n) 0 = false.
Proof.
  destruct v as [|b|z|q| | |]; simpl; intros Hn Ht; try discriminate;
    injection Hn as <-; simpl.
  - subst b. reflexivity.
  - apply negb_true_iff in Ht. apply Z.eqb_neq in Ht.
    destruct (Qeq_bool (inject_Z z) 0) eqn:Hq; [|reflexivity].
    apply Qeq_bool_eq in Hq. unfold Qeq in Hq. simpl in Hq. lia.
  - apply negb_true_iff in Ht. exact Ht.
Qed.

(** The divisor [deaths or 1] is never zero. *)
Lemma divisor_not_zero (d : json) (n : number) :
  as_number (py_or d (JInt 1)) = Some n -> Qeq_bool (to_Q n) 0 = false.
Proof.
  unfold py_or. destruct (truthy d) eqn:Ht; intros Hn.
  - eapply Qeq_bool_truthy_number; eassumption.
  - injection Hn as <-. reflexivity.
Qed.

Lemma py_add_number (a b : json) :
  is_number a = true -> is_number b = true ->
  exists s, py_add a b = Ok s /\ is_number s = true.
Proof.
  unfold is_number, py_add.
  destruct (as_number a) as [[x|x]|]; try discriminate;
    destruct (as_number b) as [[y|y]|]; try discriminate; eauto.
Qed.

Lemma py_truediv_number (a b : json) :
  is_number a = true -> is_number b = true ->
  exists n, as_number b = Some n
    /\ (Qeq_bool (to_Q n) 0 = false -> exists q, py_truediv a b = Ok q).
Proof.
  unfold is_number, py_truediv.
  destruct (as_number a) as [x|]; try discriminate.
  destruct (as_number b) as [y|]; try discriminate.
  intros _ _. exists y. split; [reflexivity|]. intros ->. eauto.
Qed.

Lemma is_number_py_or (d : json) :
  is_number d = true -> is_number (py_or d (JInt 1)) = true.
Proof. unfold py_or. destruct (truthy d); auto. Qed.

Lemma py_int_number (v : json) : is_number v = true -> exists z, py_int v = Ok z.
Proof. destruct v; simpl; try discriminate; eauto. Qed.

Lemma has_key_lookup (d : gmap string json) (key : string) :
  has_key d key = true -> exists v, d !! key = Some v.
Proof. unfold has_key. intros [v Hv]%bool_decide_eq_true. eauto. Qed.

Lemma has_number_lookup (d : gmap string json) (key : string) :
  has_number d key = true -> exists v, d !! key = Some v /\ is_number v = true.
Proof. unfold has_number. destruct (d !! key); [eauto|discriminate]. Qed.

(** With the required fields in place the row is built, and the five
    optional statistics come from the record or from their defaults. *)
Lemma build_row_ok (player info : gmap string json) (d : gmap string json) :
  d !! "info" = Some (JDict info) ->
  required_fields player info = true ->
  exists r,
    build_row (JDict player) (JDict d) = Ok r
    /\ gold r = default (JInt 0) (player !! "goldEarned")
    /\ damage r = default (JInt 0) (player !! "totalDamageDealtToChampions")
    /\ farm r = default (JInt 0) (player !! "totalMinionsKilled")
    /\ vision r = default (JInt 0) (player !! "visionScore")
    /\ py_int (default (JBool false) (player !! "firstBloodKill")) = Ok (first_blood r).
Proof.
  intros Hinfo Hreq. unfold required_fields in Hreq.
  repeat (apply andb_true_iff in Hreq as [Hreq ?]).
  destruct (has_key_lookup _ _ Hreq) as [champ Hchamp].
  destruct (has_key_lookup player "win" ltac:(assumption)) as [wn Hwin].
  destruct (has_key_lookup player "teamPosition" ltac:(assumption)) as [pos Hpos].
  destruct (has_number_lookup player "kills" ltac:(assumption)) as [k [Hk Hkn]].
  destruct (has_number_lookup player "deaths" ltac:(assumption)) as [de [Hd Hdn]].
  destruct (has_number_lookup player "assists" ltac:(assumption)) as [a [Ha Han]].
  destruct (has_number_lookup info "gameDuration" ltac:(assumption)) as [secs [Hs Hsn]].
  destruct (py_add_number k a Hkn Han) as [s [Hadd Hsum]].
  destruct (py_truediv_number s (py_or de (JInt 1)) Hsum (is_number_py_or _ Hdn))
    as [n [Hn Hdiv]].
  destruct (Hdiv (divisor_not_zero _ _ Hn)) as [q Hq].
  destruct (py_truediv_number secs (JInt 60) Hsn eq_refl) as [n60 [Hn60 Hdiv60]].
  injection Hn60 as <-. destruct (Hdiv60 eq_refl) as [mins Hmins].
  assert (exists z, py_int (default (JBool false) (player !! "firstBloodKill")) = Ok z)
    as [fb Hfb].
  { unfold number_if_present in *. destruct (player !! "firstBloodKill") as [v|]; simpl.
    - apply py_int_number. assumption.
    - eauto. }
  eexists. unfold build_row. simpl.
  rewrite Hchamp, Hwin, Hk, Hd, Ha. simpl. rewrite Hadd. simpl. rewrite Hq. simpl.
  rewrite Hpos, Hinfo. simpl. rewrite Hs. simpl. rewrite Hmins. simpl.
  rewrite Hfb. simpl. repeat split; try reflexivity.
Qed.

(** The inner loop on well-formed participants: it stops at the first
    target and appends that participant's row. *)
Lemma scan_players_ok (puuid : string) (info d : gmap string json)
    (players : list json) (data : list row) :
  d !! "info" = Some (JDict info) ->
  well_formed_players puuid info players = true ->
  exists rows,
    scan_players puuid (JDict d) players data = Ok (data ++ rows)
    /\ match find (is_target puuid) players with
       | Some player => exists r, build_row player (JDict d) = Ok r /\ rows = [r]
       | None => rows = []
       end.
Proof.
  intros Hinfo. induction players as [|player rest IH]; simpl; intros Hwf.
  - exists []. rewrite app_nil_r. auto.
  - destruct player as [| | | | | |p]; try discriminate.
    simpl. destruct (p !! "puuid") as [v|] eqn:Hp; [|discriminate]. simpl.
    destruct (eq_str v puuid) eqn:Heq.
    + destruct (build_row_ok p info d Hinfo Hwf) as [r [Hr _]].
      exists [r]. rewrite Hr. simpl. eauto.
    + apply IH. assumption.
Qed.

Lemma scan_match_ok (puuid : string) (m : json) (data : list row) :
  well_formed_match puuid m = true ->
  exists rows, scan_match puuid m data = Ok (data ++ rows) /\ contributes puuid m rows.
Proof.
  unfold well_formed_match, scan_match, contributes, participants.
  destruct m as [| | | | | |d]; try discriminate. simpl.
  destruct (d !! "info") as [info|] eqn:Hinfo; simpl.
  - destruct info as [| | | | | |info]; try discriminate. simpl.
    destruct (info !! "participants") as [players|] eqn:Hplayers; simpl.
    + destruct players as [| | | | |players|]; try discriminate. simpl.
      intros Hwf. apply (scan_players_ok puuid info d players data Hinfo Hwf).
    + intros _. exists []. rewrite app_nil_r. try rewrite lookup_empty. simpl. auto.
  - intros _. exists []. rewrite app_nil_r. try rewrite lookup_empty. simpl. auto.
Qed.


Context {net : Network}.

Lemma records_from_cons (n : nat) (match_id : string) (rest : list string) :
  records_from n (match_id :: rest) = record_at n match_id :: records_from (S n) rest.
Proof.
  unfold records_from. simpl. rewrite Nat.add_0_r. f_equal.
  apply imap_ext. intros j x _. simpl. f_equal. lia.
Qed.

Lemma getMatchDetails_step (match_id : string) (w : World.t) :
  exists w',
    getMatchDetails match_id w = (Ok (record_at (World.requests_made w) match_id), w')
    /\ World.requests_made w' = S (World.requests_made w)
    /\ World.progress_reports w' = World.progress_reports w.
Proof.
  destruct (getMatchDetails_total match_id w) as [v [w' [Hrun [Hreq Hprog]]]].
  pose proof (getMatchDetails_record match_id w) as Hrec.
  rewrite Hrun in Hrec. simpl in Hrec. injection Hrec as ->. eauto.
Qed.

Lemma progress_fraction (total i : nat) :
  total <> 0%nat ->
  py_truediv (JInt (Z.of_nat i + 1)) (JInt (Z.of_nat total)) = Ok (fraction total i).
Proof.
  intros Htotal. unfold py_truediv, fraction. simpl.
  destruct (Qeq_bool (inject_Z (Z.of_nat total)) 0) eqn:Hq; [|reflexivity].
  apply Qeq_bool_eq in Hq. unfold Qeq in Hq. simpl in Hq. lia.
Qed.


(** What a built row says about the record it was built from. *)
Lemma build_row_inv (player m : json) (r : row) :
  build_row player m = Ok r ->
  exists p d info secs,
    player = JDict p /\ m = JDict d /\ d !! "info" = Some (JDict info)
    /\ p !! "championName" = Some (champion r)
    /\ p !! "win" = Some (win r)
    /\ p !! "kills" = Some (kills r)
    /\ p !! "deaths" = Some (deaths r)
    /\ p !! "assists" = Some (assists r)
    /\ p !! "teamPosition" = Some (role r)
    /\ info !! "gameDuration" = Some secs
    /\ (s ← py_add (kills r) (assists r);
        py_truediv s (py_or (deaths r) (JInt 1))) = Ok (kda r)
    /\ py_truediv secs (JInt 60) = Ok (duration r)
    /\ gold r = default (JInt 0) (p !! "goldEarned")
    /\ damage r = default (JInt 0) (p !! "totalDamageDealtToChampions")
    /\ farm r = default (JInt 0) (p !! "totalMinionsKilled")
    /\ vision r = default (JInt 0) (p !! "visionScore")
    /\ py_int (default (JBool false) (p !! "firstBloodKill")) = Ok (first_blood r).
Proof.
  unfold build_row. intros H.
  destruct player as [| | | | | |p]; try discriminate. simpl in H.
  destruct (p !! "championName") as [vc|] eqn:Hc; [|discriminate]. simpl in H.
  destruct (p !! "win") as [vw|] eqn:Hw; [|discriminate]. simpl in H.
  destruct (p !! "kills") as [vk|] eqn:Hk; [|discriminate]. simpl in H.
  destruct (p !! "deaths") as [vd|] eqn:Hd; [|discriminate]. simpl in H.
  destruct (p !! "assists") as [va|] eqn:Ha; [|discriminate]. simpl in H.
  destruct (py_add vk va) as [s|] eqn:Hadd; [|discriminate]. simpl in H.
  destruct (py_truediv s (py_or vd (JInt 1))) as [q|] eqn:Hq; [|discriminate]. simpl in H.
  destruct (p !! "teamPosition") as [vr|] eqn:Hr; [|discriminate]. simpl in H.
  destruct m as [| | | | | |d]; try discriminate. simpl in H.
  destruct (d !! "info") as [info|] eqn:Hinfo; [|discriminate]. simpl in H.
  destruct info as [| | | | | |info]; try discriminate. simpl in H.
  destruct (info !! "gameDuration") as [secs|] eqn:Hsecs; [|discriminate]. simpl in H.
  destruct (py_truediv secs (JInt 60)) as [mins|] eqn:Hmins; [|discriminate]. simpl in H.
  destruct (py_int _) as [fb|] eqn:Hfb; [|discriminate]. simpl in H.
  injection H as <-. simpl.
  exists p, d, info, secs. rewrite Hadd. simpl. rewrite Hq. repeat split; auto.
Qed.

Lemma Qred_inject_Z (z : Z) : Qred (inject_Z z) = inject_Z z.
Proof. apply Qred_identity. simpl. apply Z.gcd_1_r. Qed.

Lemma Qred_over_one (z : Z) : Qred (inject_Z z / inject_Z 1) = inject_Z z.
Proof.
  rewrite <- (Qred_inject_Z z) at 2. apply Qred_complete.
  unfold Qdiv. change (/ inject_Z 1)%Q with 1%Q. apply Qmult_1_r.
Qed.

Lemma kda_never_divides_by_zero (s d : json) :
  py_truediv s (py_or d (JInt 1)) <> Raise ZeroDivisionError.
Proof.
  unfold py_truediv. destruct (as_number s) as [x|]; [|discriminate].
  destruct (as_number (py_or d (JInt 1))) as [y|] eqn:Hy; [|discriminate].
  rewrite (divisor_not_zero d y Hy). discriminate.
Qed.


(** C2: in every extracted row with integer kills, deaths and assists and
    non-negative deaths, kda is (kills + assists) / max(deaths, 1), which
    is kills + assists when deaths is 0; and building a row never divides
    by zero. *)
Theorem kda_guards_zero_deaths (player m : json) :
  build_row player m <> Raise ZeroDivisionError
  /\ forall (r : row) (k d a : Z),
       build_row player m = Ok r ->
       kills r = JInt k -> deaths r = JInt d -> assists r = JInt a ->
       0 <= d ->
       kda r = Qred (inject_Z (k + a) / inject_Z (Z.max d 1))
       /\ (d = 0 -> kda r = inject_Z (k + a)).
Proof.
  split.
  - unfold build_row.
    destruct player as [| | | | | |p]; try discriminate. simpl.
    destruct (p !! "championName"); [|discriminate]. simpl.
    destruct (p !! "win"); [|discriminate]. simpl.
    destruct (p !! "kills") as [vk|]; [|discriminate]. simpl.
    destruct (p !! "deaths") as [vd|]; [|discriminate]. simpl.
    destruct (p !! "assists") as [va|]; [|discriminate]. simpl.
    destruct (py_add vk va) as [s|] eqn:Hadd; simpl.
    2:{ unfold py_add in Hadd.
        destruct (as_number vk) as [[?|?]|], (as_number va) as [[?|?]|];
          try discriminate; destruct vk, va; try discriminate;
          injection Hadd as <-; discriminate. }
    pose proof (kda_never_divides_by_zero s vd) as Hkda.
    destruct (py_truediv s (py_or vd (JInt 1))) as [q|e]; simpl.
    2:{ intros He. apply Hkda. congruence. }
    destruct (p !! "teamPosition"); [|discriminate]. simpl.
    destruct m as [| | | | | |d]; try discriminate. simpl.
    destruct (d !! "info") as [info|]; [|discriminate]. simpl.
    destruct info as [| | | | | |info]; try discriminate. simpl.
    destruct (info !! "gameDuration") as [secs|]; [|discriminate]. simpl.
    assert (py_truediv secs (JInt 60) <> Raise ZeroDivisionError) as Hsecs.
    { unfold py_truediv. destruct (as_number secs); discriminate. }
    destruct (py_truediv secs (JInt 60)) as [mins|e]; simpl.
    2:{ intros He. apply Hsecs. congruence. }
    destruct (py_int _) as [fb|e] eqn:Hfb; simpl; [discriminate|].
    intros He. injection He as ->.
    destruct (default (JBool false) (p !! "firstBloodKill")); simpl in Hfb;
      try discriminate.
    destruct (int_of_str s0); discriminate.
  - intros r k d a Hrow Hk Hd Ha Hpos.
    destruct (build_row_inv player m r Hrow)
      as (p & dm & info & secs & _ & _ & _ & _ & _ & _ & _ & _ & _ & _ & Hkda & _).
    rewrite Hk, Hd, Ha in Hkda. simpl in Hkda.
    unfold py_or, py_truediv in Hkda. simpl in Hkda.
    destruct (Z.eqb_spec d 0) as [->|Hne]; simpl in Hkda.
    + injection Hkda as <-. split; [reflexivity|]. intros _. apply Qred_over_one.
    + assert (Qeq_bool (inject_Z d) 0 = false) as Hq.
      { destruct (Qeq_bool (inject_Z d) 0) eqn:Hq; [|reflexivity].
        apply Qeq_bool_eq in Hq. unfold Qeq in Hq. simpl in Hq. lia. }
      rewrite Hq in Hkda. injection Hkda as <-.
      split; [|intros ->; contradiction].
      replace (Z.max d 1) with d by lia. reflexivity.
Qed.





End FeatureExtractor.

(** ** Properties of the encoder, the splitter and the scenario predictor *)

Section Model.
Import model Spec.

(** *** Distinct values and their counts *)

Lemma elem_of_unique (v : string) (l : list string) : v ∈ unique l <-> v ∈ l.
Proof.
  induction l as [|u l IH]; simpl; [reflexivity|].
  rewrite !elem_of_cons, list_elem_of_filter, IH.
  destruct (decide (v = u)); tauto.
Qed.

Lemma NoDup_unique (l : list string) : NoDup (unique l).
Proof.
  induction l as [|u l IH]; simpl; constructor.
  - rewrite list_elem_of_filter. intros [Hne _]. apply Hne. reflexivity.
  - apply NoDup_filter. exact IH.
Qed.

Lemma insert_count_Permutation (a : string * nat) (sorted : list (string * nat)) :
  insert_count a sorted ≡ₚ a :: sorted.
Proof.
  induction sorted as [|b rest IH]; simpl; [reflexivity|].
  destruct (decide _); [reflexivity|].
  rewrite IH. apply Permutation_swap.
Qed.

Lemma sort_values_descending_Permutation (counts : list (string * nat)) :
  sort_values_descending counts ≡ₚ counts.
Proof.
  induction counts as [|a rest IH]; simpl; [reflexivity|].
  rewrite insert_count_Permutation, IH. reflexivity.
Qed.

(** The most frequent value comes first. *)
Lemma insert_count_Sorted (a : string * nat) (sorted : list (string * nat)) :
  Sorted (fun x y => (y.2 <= x.2)%nat) sorted ->
  Sorted (fun x y => (y.2 <= x.2)%nat) (insert_count a sorted).
Proof.
  induction 1 as [|b rest Hrest IH Hhd]; simpl.
  - repeat constructor.
  - destruct (decide _) as [Hle|Hgt].
    + constructor; [constructor; assumption|]. constructor. exact Hle.
    + constructor; [exact IH|].
      destruct rest as [|c rest']; simpl.
      * constructor. simpl. lia.
      * destruct (decide _); constructor; simpl; [lia|].
        inversion Hhd. assumption.
Qed.

Lemma value_counts_Sorted (l : list string) :
  Sorted (fun x y => (y.2 <= x.2)%nat) (value_counts l).
Proof.
  unfold value_counts, sort_values_descending.
  induction (_ <$> unique l) as [|a rest IH]; simpl; [constructor|].
  apply insert_count_Sorted. exact IH.
Qed.

Lemma value_counts_length (l : list string) :
  length (value_counts l) = length (unique l).
Proof.
  unfold value_counts.
  rewrite (Permutation_length (sort_values_descending_Permutation _)).
  apply length_fmap.
Qed.

Lemma head_index_length (n : nat) (l : list string) :
  length (head_index n (value_counts l)) = Nat.min n (length (unique l)).
Proof.
  unfold head_index. rewrite length_fmap, length_take, value_counts_length. reflexivity.
Qed.

(** The values kept are values of the column. *)
Lemma head_index_elem_of (n : nat) (l : list string) (v : string) :
  v ∈ head_index n (value_counts l) -> v ∈ l.
Proof.
  unfold head_index. intros [[v' c] [-> Hin]]%list_elem_of_fmap.
  apply (subseteq_take n) in Hin. unfold value_counts in Hin.
  rewrite sort_values_descending_Permutation in Hin.
  apply list_elem_of_fmap in Hin as [u [[= -> _] Hu]].
  apply elem_of_unique. exact Hu.
Qed.

(** *** Loops *)

Lemma for_each_app {A B} (g : A -> list B) (body : A -> list B -> Result (list B))
    (l : list A) :
  (forall a acc, a ∈ l -> body a acc = Ok (acc ++ g a)) ->
  forall acc, for_each l body acc = Ok (acc ++ flat_map g l).
Proof.
  induction l as [|a l IH]; intros Hbody acc; simpl.
  - rewrite app_nil_r. reflexivity.
  - rewrite Hbody by left. simpl. rewrite IH.
    + rewrite app_assoc. reflexivity.
    + intros a' acc' Ha'. apply Hbody. right. exact Ha'.
Qed.

(** *** The scenario predictor *)

Context {sk : Sklearn}.

Lemma column_ok {A} (name : string) (f : MatchFeatureRow -> A) (df : list MatchFeatureRow) :
  df <> [] -> column name f df = Ok (f <$> df).
Proof. destruct df; [contradiction|reflexivity]. Qed.

Lemma percentage_bounds (p : Q) :
  (0 <= p)%Q -> (p <= 1)%Q -> (0 <= Qred (p * 100))%Q /\ (Qred (p * 100) <= 100)%Q.
Proof.
  intros H0 H1. rewrite Qred_correct. split.
  - apply Qmult_le_0_compat; [exact H0|discriminate].
  - change 100%Q with (1 * 100)%Q at 2. apply Qmult_le_compat_r; [exact H1|discriminate].
Qed.

Lemma flat_map_pairs {A B C} (f : A -> B -> C) (l : list A) (k : list B) :
  length (flat_map (fun a => (fun b => f a b) <$> k) l) = (length l * length k)%nat.
Proof.
  induction l as [|a l IH]; simpl; [reflexivity|].
  rewrite length_app, length_fmap, IH. reflexivity.
Qed.

(** X21: on a non-empty table, with a forest that saw both outcomes, the
    scenario predictor returns one prediction per pair of a top champion
    and a top lane: as many as (distinct champions, capped at 3) times
    (distinct lanes, capped at 2), so at most 6; they come champion by
    champion and, for each champion, lane by lane; and every probability
    is between 0 and 100. *)
Theorem predictByMostPlayed_count (forest : classifier) (x : Frame)
    (df : list MatchFeatureRow) :
  df <> [] ->
  two_classes forest ->
  exists predictions,
    predictByMostPlayed forest x df = Ok predictions
    /\ length predictions =
         (Nat.min 3 (length (unique (champion <$> df)))
          * Nat.min 2 (length (unique (role <$> df))))%nat
    /\ (length predictions <= 6)%nat
    /\ (fun p => (p.1.1, p.1.2)) <$> predictions =
         list_prod (top_champions df) (role_name <$> top_roles df)
    /\ Forall (fun p => (0 <= p.2)%Q /\ (p.2 <= 100)%Q) predictions.
Proof.
  intros Hdf Hforest.
  set (entry_of champ role_ :=
         synthetic_entry (columns x) (mean (kda <$> df)) (mean (duration <$> df))
           champ role_).
  set (prob_of champ role_ :=
         match predict_proba forest (entry_of champ role_) with
         | Ok ((_ :: p :: _) :: _) => Qred (p * 100)
         | _ => 0%Q
         end).
  set (prediction champ role_ := (champ, role_name role_, prob_of champ role_)).
  exists (flat_map (fun champ => prediction champ <$> top_roles df) (top_champions df)).
  split; [|split; [|split; [|split]]].
  - unfold predictByMostPlayed. rewrite !column_ok by assumption. simpl.
    rewrite (for_each_app (fun champ => prediction champ <$> top_roles df));
      [reflexivity|].
    intros champ acc _.
    rewrite (for_each_app (fun role_ => [prediction champ role_])).
    + f_equal.
    + intros role_ acc' _. unfold prediction, prob_of, entry_of.
      destruct (Hforest (synthetic_entry (columns x) (mean (kda <$> df))
                           (mean (duration <$> df)) champ role_))
        as (lose & win_ & -> & _). reflexivity.
  - rewrite flat_map_pairs. unfold top_champions, top_roles.
    rewrite !head_index_length. reflexivity.
  - rewrite flat_map_pairs. unfold top_champions, top_roles.
    rewrite !head_index_length.
    transitivity (3 * 2)%nat; [|reflexivity].
    apply Nat.mul_le_mono; apply Nat.le_min_l.
  - induction (top_champions df) as [|champ l IH]; simpl; [reflexivity|].
    rewrite fmap_app, IH. f_equal.
    rewrite <- !list_fmap_compose. reflexivity.
  - apply Forall_forall. intros p Hin.
    apply list_elem_of_In, in_flat_map in Hin as [champ [_ Hin]].
    apply list_elem_of_In, list_elem_of_fmap in Hin as [role_ [-> _]].
    unfold prediction, prob_of. simpl.
    destruct (Hforest (entry_of champ role_)) as (lose & win_ & -> & H0 & H1).
    apply percentage_bounds; assumption.
Qed.

(** *** The synthetic row *)

Lemma zeros_labels (cols : list string) : (zeros cols).*1 = cols.
Proof.
  unfold zeros. induction cols as [|c cols IH]; simpl; [reflexivity|].
  f_equal. exact IH.
Qed.

Lemma zeros_cell (cols : list string) (label : string) (v : Q) :
  (label, v) ∈ zeros cols -> v = 0%Q.
Proof. unfold zeros. intros [c [[= _ ->] _]]%list_elem_of_fmap. reflexivity. Qed.

(** Assigning to a label the table has keeps the labels as they are. *)
Lemma setitem_labels_present (entry : list (string * Q)) (label : string) (v : Q) :
  label ∈ entry.*1 -> (setitem entry label v).*1 = entry.*1.
Proof.
  intros Hin. unfold setitem. rewrite bool_decide_eq_true_2 by assumption.
  rewrite <- list_fmap_compose. apply list_fmap_ext.
  intros i [c x] _. simpl. destruct (bool_decide _); reflexivity.
Qed.

Lemma setitem_cell (entry : list (string * Q)) (label : string) (v : Q)
    (c : string) (x : Q) :
  (c, x) ∈ setitem entry label v ->
  (c = label /\ x = v) \/ (c <> label /\ (c, x) ∈ entry).
Proof.
  unfold setitem. destruct (bool_decide (label ∈ entry.*1)) eqn:Hin.
  - intros [[c' x'] [Heq Hcell]]%list_elem_of_fmap. simpl in Heq.
    destruct (bool_decide (c' = label)) eqn:Hc.
    + apply bool_decide_eq_true in Hc. injection Heq as -> ->. left. auto.
    + apply bool_decide_eq_false in Hc. injection Heq as -> ->. right. auto.
  - apply bool_decide_eq_false in Hin.
    intros [Hcell|Hcell]%elem_of_app.
    + right. split; [|exact Hcell]. intros ->. apply Hin.
      apply list_elem_of_fmap. exists (label, x). auto.
    + apply list_elem_of_singleton in Hcell. injection Hcell as -> ->. left. auto.
Qed.

Lemma setitem_NoDup (entry : list (string * Q)) (label : string) (v : Q) :
  NoDup entry.*1 -> NoDup (setitem entry label v).*1.
Proof.
  intros Hnd. destruct (decide (label ∈ entry.*1)) as [Hin|Hout].
  - rewrite setitem_labels_present by assumption. exact Hnd.
  - unfold setitem. rewrite bool_decide_eq_false_2 by assumption.
    rewrite fmap_app. apply NoDup_app. split; [exact Hnd|]. split.
    + intros c Hc [->|[]%elem_of_nil]%elem_of_cons. contradiction.
    + apply NoDup_singleton.
Qed.

Lemma set_if_present_labels (entry : list (string * Q)) (label : string) (v : Q) :
  (set_if_present entry label v).*1 = entry.*1.
Proof.
  unfold set_if_present. destruct (bool_decide _) eqn:Hin; [|reflexivity].
  apply setitem_labels_present. apply bool_decide_eq_true in Hin. exact Hin.
Qed.

Lemma set_if_present_cell (entry : list (string * Q)) (label : string) (v : Q)
    (c : string) (x : Q) :
  (c, x) ∈ set_if_present entry label v ->
  (c = label /\ x = v /\ label ∈ entry.*1) \/ (c <> label /\ (c, x) ∈ entry).
Proof.
  unfold set_if_present. destruct (bool_decide _) eqn:Hin.
  - apply bool_decide_eq_true in Hin.
    intros [[-> ->]|H]%setitem_cell; [left|right]; auto.
  - apply bool_decide_eq_false in Hin. intros Hcell. right. split; [|exact Hcell].
    intros ->. apply Hin. apply list_elem_of_fmap. exists (label, x). auto.
Qed.

Lemma setitem_labels (entry : list (string * Q)) (label : string) (v : Q) (c : string) :
  c ∈ (setitem entry label v).*1 -> c ∈ entry.*1 \/ c = label.
Proof.
  intros [[c' x] [-> Hcell]]%list_elem_of_fmap.
  apply setitem_cell in Hcell as [[-> _]|[_ Hcell]]; [right; reflexivity|].
  left. apply list_elem_of_fmap. exists (c', x). auto.
Qed.

Lemma synthetic_entry_unfold (cols : list string) (kda_average time_average : Q)
    (champ role_ : string) :
  synthetic_entry cols kda_average time_average champ role_ =
    set_if_present
      (set_if_present
         (setitem (setitem (zeros cols) "kda" kda_average) "duration" time_average)
         ("champion_" +:+ champ) 1%Q)
      ("role_" +:+ role_) 1%Q.
Proof. reflexivity. Qed.

(** Where a cell of the synthetic row gets its value from. *)
Lemma synthetic_entry_cell (cols : list string) (kda_average time_average : Q)
    (champ role_ label : string) (v : Q) :
  (label, v) ∈ synthetic_entry cols kda_average time_average champ role_ ->
  (label = "role_" +:+ role_ /\ v = 1%Q /\ ("role_" +:+ role_ ∈ cols))
  \/ (label = "champion_" +:+ champ /\ v = 1%Q /\ ("champion_" +:+ champ ∈ cols))
  \/ label = "duration" \/ label = "kda"
  \/ (label <> "role_" +:+ role_ /\ label <> "champion_" +:+ champ
      /\ label <> "duration" /\ label <> "kda" /\ v = 0%Q).
Proof.
  rewrite synthetic_entry_unfold. intros Hcell.
  apply set_if_present_cell in Hcell as [(-> & -> & Hin)|(Hr & Hcell)].
  { left. repeat split.
    rewrite set_if_present_labels in Hin.
    apply setitem_labels in Hin as [Hin|Hin]; [|discriminate].
    apply setitem_labels in Hin as [Hin|Hin]; [|discriminate].
    rewrite zeros_labels in Hin. exact Hin. }
  apply set_if_present_cell in Hcell as [(-> & -> & Hin)|(Hc & Hcell)].
  { right. left. repeat split.
    apply setitem_labels in Hin as [Hin|Hin]; [|discriminate].
    apply setitem_labels in Hin as [Hin|Hin]; [|discriminate].
    rewrite zeros_labels in Hin. exact Hin. }
  apply setitem_cell in Hcell as [[-> _]|[Hd Hcell]]; [auto|].
  apply setitem_cell in Hcell as [[-> _]|[Hk Hcell]]; [auto|].
  apply zeros_cell in Hcell. do 4 right. auto.
Qed.

(** C10: the synthetic row for a champion and a lane has the columns the
    numeric assignments left (the schema's own when it has kda and
    duration): the indicator assignments add none. A champion indicator is
    1 only in the column of that champion and is 0 everywhere when the
    schema has no such column; likewise for the lane; every column other
    than those two, kda and duration is 0. With distinct labels in the
    schema the labels of the row are distinct, so at most one champion
    indicator and at most one lane indicator are 1. *)
Theorem synthetic_entry_indicators (cols : list string) (kda_average time_average : Q)
    (champ role_ : string) :
  NoDup cols ->
  let entry := synthetic_entry cols kda_average time_average champ role_ in
  entry.*1 = (setitem (setitem (zeros cols) "kda" kda_average) "duration" time_average).*1
  /\ ("kda" ∈ cols -> "duration" ∈ cols -> entry.*1 = cols)
  /\ NoDup entry.*1
  /\ (forall label v, (label, v) ∈ entry -> indicator_of "champion_" label = true ->
        (label = "champion_" +:+ champ /\ v = 1%Q) \/ v = 0%Q)
  /\ (forall label v, (label, v) ∈ entry -> indicator_of "role_" label = true ->
        (label = "role_" +:+ role_ /\ v = 1%Q) \/ v = 0%Q)
  /\ (forall label v, (label, v) ∈ entry ->
        label ∉ ["kda"; "duration"; "champion_" +:+ champ; "role_" +:+ role_] ->
        v = 0%Q)
  /\ ("champion_" +:+ champ ∉ cols ->
       forall label v, (label, v) ∈ entry -> indicator_of "champion_" label = true ->
         v = 0%Q)
  /\ ("role_" +:+ role_ ∉ cols ->
       forall label v, (label, v) ∈ entry -> indicator_of "role_" label = true ->
         v = 0%Q).
Proof.
  intros Hnd entry. subst entry.
  assert (forall label v,
            (label, v) ∈ synthetic_entry cols kda_average time_average champ role_ ->
            indicator_of "champion_" label = true ->
            (label = "champion_" +:+ champ /\ v = 1%Q /\ "champion_" +:+ champ ∈ cols)
            \/ v = 0%Q) as Hchamp.
  { intros label v Hcell Hind.
    apply synthetic_entry_cell in Hcell
      as [(-> & _)|[(-> & -> & Hin)|[->|[->|(_ & _ & _ & _ & ->)]]]];
      try discriminate; auto. }
  assert (forall label v,
            (label, v) ∈ synthetic_entry cols kda_average time_average champ role_ ->
            indicator_of "role_" label = true ->
            (label = "role_" +:+ role_ /\ v = 1%Q /\ "role_" +:+ role_ ∈ cols)
            \/ v = 0%Q) as Hrole.
  { intros label v Hcell Hind.
    apply synthetic_entry_cell in Hcell
      as [(-> & -> & Hin)|[(-> & _)|[->|[->|(_ & _ & _ & _ & ->)]]]];
      try discriminate; auto. }
  rewrite synthetic_entry_unfold, !set_if_present_labels.
  rewrite <- synthetic_entry_unfold.
  split; [reflexivity|]. split; [|split; [|split; [|split; [|split; [|split]]]]].
  - intros Hk Hd.
    rewrite setitem_labels_present.
    + rewrite setitem_labels_present; rewrite zeros_labels; auto.
    + rewrite setitem_labels_present; rewrite zeros_labels; auto.
  - apply setitem_NoDup, setitem_NoDup. rewrite zeros_labels. exact Hnd.
  - intros label v Hcell Hind.
    destruct (Hchamp label v Hcell Hind) as [(-> & -> & _)| ->]; auto.
  - intros label v Hcell Hind.
    destruct (Hrole label v Hcell Hind) as [(-> & -> & _)| ->]; auto.
  - intros label v Hcell Hout.
    apply synthetic_entry_cell in Hcell
      as [(-> & _)|[(-> & _)|[->|[->|(_ & _ & _ & _ & ->)]]]];
      try reflexivity; exfalso; apply Hout;
      repeat first [apply list_elem_of_here | apply list_elem_of_further].
  - intros Hout label v Hcell Hind.
    destruct (Hchamp label v Hcell Hind) as [(_ & _ & Hin)| ->]; [contradiction|reflexivity].
  - intros Hout label v Hcell Hind.
    destruct (Hrole label v Hcell Hind) as [(_ & _ & Hin)| ->]; [contradiction|reflexivity].
Qed.

(** *** Encoding and splitting *)

Lemma Qceiling_fifth (z : Z) : Qceiling ((1 # 5) * inject_Z z) = - ((- z) / 5).
Proof.
  unfold Qceiling, Qfloor, Qopp, Qmult, inject_Z. cbn [Qnum Qden].
  rewrite Z.mul_1_l. reflexivity.
Qed.

(** The size of the test part is the fifth of the table, rounded up. *)
Lemma test_count_bounds (n : nat) :
  let n_test := Z.to_nat (Qceiling ((1 # 5) * inject_Z (Z.of_nat n))) in
  (n <= 5 * n_test)%nat /\ (5 * n_test < n + 5)%nat.
Proof.
  intros n_test. subst n_test. rewrite Qceiling_fifth.
  assert (H := Z.div_mod (- Z.of_nat n) 5 ltac:(lia)).
  assert (H2 := Z.mod_pos_bound (- Z.of_nat n) 5 ltac:(lia)).
  lia.
Qed.

Lemma iloc_ok {A} (l : list A) (positions : list nat) :
  Forall (fun i => (i < length l)%nat) positions ->
  exists out, iloc l positions = Ok out /\ length out = length positions.
Proof.
  unfold iloc. induction 1 as [|i positions Hi _ [out [IH Hlen]]]; simpl.
  - exists []. auto.
  - apply lookup_lt_is_Some_2 in Hi as [a Ha]. rewrite Ha. simpl.
    rewrite IH. simpl. exists (a :: out). simpl. auto.
Qed.

Lemma get_dummies_eq (df : list MatchFeatureRow) :
  df <> [] ->
  get_dummies df =
    Ok {| columns := other_columns
                       ++ (String.append "champion_" <$> categories (champion <$> df))
                       ++ (String.append "role_" <$> categories (role <$> df));
          rows := (fun r => other_cells r
                              ++ indicators (champion r) (categories (champion <$> df))
                              ++ indicators (role r) (categories (role <$> df))) <$> df |}.
Proof.
  intros Hdf. unfold get_dummies. rewrite !column_ok by assumption. reflexivity.
Qed.

Lemma get_dummies_ok (df : list MatchFeatureRow) :
  df <> [] ->
  exists enc,
    get_dummies df = Ok enc
    /\ columns enc =
         other_columns
           ++ (String.append "champion_" <$> categories (champion <$> df))
           ++ (String.append "role_" <$> categories (role <$> df))
    /\ length (rows enc) = length df.
Proof.
  intros Hdf. unfold get_dummies. rewrite !column_ok by assumption. simpl.
  eexists. split; [reflexivity|]. simpl. split; [reflexivity|].
  apply length_fmap.
Qed.

Lemma permutation_positions (g : rng) (n : nat) :
  length (permutation g n).1 = n
  /\ Forall (fun i => (i < n)%nat) (permutation g n).1.
Proof.
  pose proof (permutation_spec g n) as Hperm. split.
  - rewrite Hperm. apply length_seq.
  - rewrite Hperm. apply Forall_forall. intros i Hi.
    apply elem_of_seq in Hi. lia.
Qed.

(** A run of [trainModel] on a table of at least two rows. *)
Lemma trainModel_run (df : list MatchFeatureRow) (g : rng) :
  (2 <= length df)%nat ->
  exists forest x_train x_test y_train y_test enc,
    trainModel df g = (Ok (forest, x_train, x_test, y_train, y_test, enc), g)
    /\ get_dummies df = Ok enc
    /\ length (rows enc) = length df
    /\ (length (rows x_train) + length (rows x_test) = length df)%nat
    /\ (length df <= 5 * length (rows x_test))%nat
    /\ (5 * length (rows x_test) < length df + 5)%nat
    /\ length y_train = length (rows x_train)
    /\ length y_test = length (rows x_test).
Proof.
  intros Hlen.
  assert (df <> []) as Hdf by (destruct df; simpl in Hlen; [lia|discriminate]).
  destruct (get_dummies_ok df Hdf) as (enc & Henc & Hcols & Hrows).
  unfold trainModel, mbind, ST_bind, bind, lift. rewrite Henc.
  unfold drop_column, get_column. rewrite Hcols.
  rewrite bool_decide_eq_true_2 by (apply list_elem_of_here).
  change (list_find (fun c => c = "win") (other_columns ++ _))
    with (Some (0%nat, "win")).
  cbv beta iota.
  unfold train_test_split.
  set (x := {| columns := _; rows := _ |}).
  set (y := _ <$> rows enc).
  assert (length (rows x) = length df) as Hx.
  { subst x. simpl. rewrite length_fmap. exact Hrows. }
  assert (length y = length df) as Hy.
  { subst y. rewrite length_fmap. exact Hrows. }
  rewrite Hx.
  pose proof (test_count_bounds (length df)) as [Hlo Hhi].
  set (n_test := Z.to_nat _) in *.
  destruct (Nat.eqb_spec (length df - n_test) 0) as [Hzero|_]; [lia|].
  unfold check_random_state.
  destruct (permutation (RandomState 42) (length df)) as [perm g'] eqn:Hperm.
  pose proof (permutation_positions (RandomState 42) (length df)) as [Hplen Hpos].
  rewrite Hperm in Hplen, Hpos. simpl in Hplen, Hpos.
  destruct (iloc_ok (rows x) (take (length df - n_test) (drop n_test perm)))
    as (x_train & -> & Hxtrain).
  { rewrite Hx. apply Forall_take, Forall_drop. exact Hpos. }
  destruct (iloc_ok (rows x) (take n_test perm)) as (x_test & -> & Hxtest).
  { rewrite Hx. apply Forall_take. exact Hpos. }
  destruct (iloc_ok y (take (length df - n_test) (drop n_test perm)))
    as (y_train & -> & Hytrain).
  { rewrite Hy. apply Forall_take, Forall_drop. exact Hpos. }
  destruct (iloc_ok y (take n_test perm)) as (y_test & -> & Hytest).
  { rewrite Hy. apply Forall_take. exact Hpos. }
  rewrite length_take, length_drop in Hxtrain, Hytrain.
  rewrite length_take in Hxtest, Hytest.
  simpl. unfold RandomForestClassifier_fit, check_random_state.
  destruct (forest_fit _ _ _) as [forest g''] eqn:Hfit. simpl.
  do 6 eexists. split; [reflexivity|]. simpl.
  repeat split; try assumption; lia.
Qed.


Lemma categories_elem_of (l : list string) (v : string) : v ∈ categories l <-> v ∈ l.
Proof.
  unfold categories. rewrite merge_sort_Permutation. apply elem_of_unique.
Qed.

Lemma categories_NoDup (l : list string) : NoDup (categories l).
Proof.
  unfold categories. rewrite merge_sort_Permutation. apply NoDup_unique.
Qed.

#[local] Instance append_inj (prefix : string) : Inj (=) (=) (String.append prefix).
Proof.
  intros a b. induction prefix as [|c prefix IH]; simpl; [auto|].
  intros [= H]. auto.
Qed.

Lemma champion_label_not_other (v : string) : "champion_" +:+ v ∉ other_columns.
Proof.
  unfold other_columns. intros H.
  repeat (apply elem_of_cons in H as [H|H]; [simpl in H; discriminate H|]).
  inversion H.
Qed.

Lemma role_label_not_other (v : string) : "role_" +:+ v ∉ other_columns.
Proof.
  unfold other_columns. intros H.
  repeat (apply elem_of_cons in H as [H|H]; [simpl in H; discriminate H|]).
  inversion H.
Qed.

Lemma other_columns_NoDup : NoDup other_columns.
Proof. refine (bool_decide_unpack (NoDup other_columns) _). vm_compute. exact I. Qed.

(** The labels of the encoded table. *)
Lemma encoded_columns (champions roles : list string) :
  let cols := other_columns
                ++ (String.append "champion_" <$> categories champions)
                ++ (String.append "role_" <$> categories roles) in
  NoDup cols
  /\ forall label,
       label ∈ cols <->
         label ∈ other_columns
         \/ (exists v, v ∈ champions /\ label = "champion_" +:+ v)
         \/ (exists v, v ∈ roles /\ label = "role_" +:+ v).
Proof.
  intros cols. subst cols. split.
  - apply NoDup_app. split; [apply other_columns_NoDup|]. split.
    + intros label Hother [Hin|Hin]%elem_of_app;
        apply list_elem_of_fmap in Hin as [v [-> _]].
      * exact (champion_label_not_other v Hother).
      * exact (role_label_not_other v Hother).
    + apply NoDup_app. split; [|split].
      * apply (NoDup_fmap_2 _). apply categories_NoDup.
      * intros label [v [-> _]]%list_elem_of_fmap [u [Hu _]]%list_elem_of_fmap.
        simpl in Hu. discriminate Hu.
      * apply (NoDup_fmap_2 _). apply categories_NoDup.
  - intros label. rewrite !elem_of_app, !list_elem_of_fmap.
    setoid_rewrite categories_elem_of.
    split; intros [H|[[v [H1 H2]]|[v [H1 H2]]]]; eauto.
Qed.

Lemma zip_fmap_elem_of {A B C} (f : A -> B) (h : A -> C) (l : list A) (b : B) (c : C) :
  (b, c) ∈ zip (f <$> l) (h <$> l) -> exists a, a ∈ l /\ b = f a /\ c = h a.
Proof.
  induction l as [|a l IH]; simpl; intros Hin.
  - inversion Hin.
  - apply elem_of_cons in Hin as [[= -> ->]|Hin].
    + exists a. split; [left|]; auto.
    + destruct (IH Hin) as (a' & Ha' & -> & ->). exists a'. split; [right|]; auto.
Qed.

(** The cells of an encoded row: under [champion_<c>] a 1 when the row's
    champion is [c] and a 0 otherwise, and likewise under [role_<c>]. *)
Lemma encoded_cells (r : MatchFeatureRow) (champion_cats role_cats : list string)
    (label : string) (v : Q) :
  (label, v) ∈ zip (other_columns
                      ++ (String.append "champion_" <$> champion_cats)
                      ++ (String.append "role_" <$> role_cats))
                 (other_cells r
                    ++ indicators (champion r) champion_cats
                    ++ indicators (role r) role_cats) ->
  (forall c, label = "champion_" +:+ c -> v = Q_of_bool (bool_decide (champion r = c)))
  /\ (forall c, label = "role_" +:+ c -> v = Q_of_bool (bool_decide (role r = c))).
Proof.
  rewrite zip_with_app by reflexivity.
  rewrite zip_with_app by (unfold indicators; rewrite !length_fmap; reflexivity).
  intros [Hin|[Hin|Hin]%elem_of_app]%elem_of_app.
  - apply elem_of_zip_l in Hin.
    split; intros c ->.
    + destruct (champion_label_not_other c Hin).
    + destruct (role_label_not_other c Hin).
  - apply zip_fmap_elem_of in Hin as (c' & _ & -> & ->).
    split; intros c Hc.
    + apply (inj _) in Hc. subst c'. reflexivity.
    + simpl in Hc. discriminate Hc.
  - apply zip_fmap_elem_of in Hin as (c' & _ & -> & ->).
    split; intros c Hc.
    + simpl in Hc. discriminate Hc.
    + apply (inj _) in Hc. subst c'. reflexivity.
Qed.

(** C8: on a table of at least two rows [trainModel] returns, and the
    labels of the encoded table it returns are distinct and are exactly the
    eleven columns that are not encoded, one [champion_<v>] for each
    champion [v] of the table and one [role_<v>] for each lane [v] of the
    table; it has the rows of the table, and in each row the cell under
    [champion_<c>] (under [role_<c>]) is 1 when the row's champion (lane)
    is [c] and 0 otherwise. *)
Theorem trainModel_columns (df : list MatchFeatureRow) (g : rng) :
  (2 <= length df)%nat ->
  exists forest x_train x_test y_train y_test df_encoded,
    trainModel df g = (Ok (forest, x_train, x_test, y_train, y_test, df_encoded), g)
    /\ NoDup (columns df_encoded)
    /\ (forall label,
          label ∈ columns df_encoded <->
            label ∈ other_columns
            \/ (exists v, v ∈ champion <$> df /\ label = "champion_" +:+ v)
            \/ (exists v, v ∈ role <$> df /\ label = "role_" +:+ v))
    /\ length (rows df_encoded) = length df
    /\ (forall i r, df !! i = Some r ->
          exists cells,
            rows df_encoded !! i = Some cells
            /\ length cells = length (columns df_encoded)
            /\ forall label v, (label, v) ∈ zip (columns df_encoded) cells ->
                 (forall c, label = "champion_" +:+ c ->
                    v = Q_of_bool (bool_decide (champion r = c)))
                 /\ (forall c, label = "role_" +:+ c ->
                      v = Q_of_bool (bool_decide (role r = c)))).
Proof.
  intros Hlen.
  destruct (trainModel_run df g Hlen)
    as (forest & x_train & x_test & y_train & y_test & enc & Hrun & Henc & Hrows & _).
  exists forest, x_train, x_test, y_train, y_test, enc.
  split; [exact Hrun|].
  assert (df <> []) as Hdf by (destruct df; simpl in Hlen; [lia|discriminate]).
  rewrite (get_dummies_eq df Hdf) in Henc. injection Henc as <-.
  cbn [columns rows].
  destruct (encoded_columns (champion <$> df) (role <$> df)) as [Hnd Hin].
  split; [exact Hnd|]. split; [exact Hin|]. split; [apply length_fmap|].
  intros i r Hr.
  exists (other_cells r
            ++ indicators (champion r) (categories (champion <$> df))
            ++ indicators (role r) (categories (role <$> df))).
  split; [rewrite list_lookup_fmap, Hr; reflexivity|].
  split.
  - unfold indicators. simpl. rewrite !length_app, !length_fmap. reflexivity.
  - intros label v. apply encoded_cells.
Qed.


End Model.

(** ** The properties on the sample data *)

Section Witnesses.
Import api_utils data_processing Spec.

(** C4: the second request of the sample network times out. The call
    issues that one request, shows and prints the failure and returns the
    empty dict without having slept, although the function is documented
    to hold one request per second and does sleep when the upstream
    answers with an error status, as the third request shows. *)
Theorem getMatchDetails_timeout_skips_sleep :
  let w := Sample.after_one_request in
  let after_timeout := getMatchDetails (net := Sample.riot) "BR1_2" w in
  let after_refusal := getMatchDetails (net := Sample.riot) "BR1_3" after_timeout.2 in
  after_timeout.1 = Ok (JDict ∅)
  /\ World.requests_made after_timeout.2 = S (World.requests_made w)
  /\ World.slept after_timeout.2 = World.slept w
  /\ after_refusal.1 = Ok (JDict ∅)
  /\ World.slept after_refusal.2 = S (World.slept w).
Proof. vm_compute. repeat split. Qed.

Lemma getMatchDetails_failure_is_empty_witness :
  exists w',
    getMatchDetails (net := Sample.riot) "BR1_2" Sample.after_one_request
      = (Ok (JDict ∅), w')
    /\ forall (next_id : string) (r : Response) (v : json),
         network (Network := Sample.riot) (World.requests_made w')
           (match_url (net := Sample.riot) next_id) = Responds r ->
         error_status r = false ->
         body r = Some v ->
         exists w'', getMatchDetails (net := Sample.riot) next_id w' = (Ok v, w'').
Proof.
  apply (getMatchDetails_failure_is_empty (net := Sample.riot) "BR1_2"
           Sample.after_one_request).
  vm_compute. reflexivity.
Defined.


Lemma kda_guards_zero_deaths_witness :
  kda Sample.ahri_row = Qred (inject_Z (2 + 2) / inject_Z (Z.max 0 1))
  /\ (0 = 0 -> kda Sample.ahri_row = inject_Z (2 + 2)).
Proof.
  apply (proj2 (kda_guards_zero_deaths Sample.ahri Sample.played) Sample.ahri_row 2 0 2).
  - vm_compute. reflexivity.
  - reflexivity.
  - reflexivity.
  - reflexivity.
  - lia.
Defined.




Lemma predictByMostPlayed_count_witness :
  exists predictions,
    model.predictByMostPlayed (sk := Sample.sklearn) tt
      {| model.columns := Sample.schema; model.rows := [] |} Sample.df = Ok predictions
    /\ length predictions =
         (Nat.min 3 (length (model.unique (model.champion <$> Sample.df)))
          * Nat.min 2 (length (model.unique (model.role <$> Sample.df))))%nat
    /\ (length predictions <= 6)%nat
    /\ (fun p => (p.1.1, p.1.2)) <$> predictions =
         list_prod (top_champions Sample.df) (role_name <$> top_roles Sample.df)
    /\ Forall (fun p => (0 <= p.2)%Q /\ (p.2 <= 100)%Q) predictions.
Proof.
  apply (predictByMostPlayed_count (sk := Sample.sklearn) tt
           {| model.columns := Sample.schema; model.rows := [] |} Sample.df).
  - discriminate.
  - intros entry. exists (1 # 4)%Q, (3 # 4)%Q. repeat split; discriminate.
Defined.

Lemma trainModel_columns_witness :
  exists forest x_train x_test y_train y_test df_encoded,
    model.trainModel (sk := Sample.sklearn) Sample.df 7%nat
      = (Ok (forest, x_train, x_test, y_train, y_test, df_encoded), 7%nat)
    /\ NoDup (model.columns df_encoded)
    /\ (forall label,
          label ∈ model.columns df_encoded <->
            label ∈ model.other_columns
            \/ (exists v, v ∈ model.champion <$> Sample.df /\ label = "champion_" +:+ v)
            \/ (exists v, v ∈ model.role <$> Sample.df /\ label = "role_" +:+ v))
    /\ length (model.rows df_encoded) = length Sample.df
    /\ (forall i r, Sample.df !! i = Some r ->
          exists cells,
            model.rows df_encoded !! i = Some cells
            /\ length cells = length (model.columns df_encoded)
            /\ forall label v, (label, v) ∈ zip (model.columns df_encoded) cells ->
                 (forall c, label = "champion_" +:+ c ->
                    v = model.Q_of_bool (bool_decide (model.champion r = c)))
                 /\ (forall c, label = "role_" +:+ c ->
                      v = model.Q_of_bool (bool_decide (model.role r = c)))).
Proof.
  apply (trainModel_columns (sk := Sample.sklearn) Sample.df 7%nat).
  simpl. lia.
Defined.


Lemma synthetic_entry_indicators_witness :
  let entry := model.synthetic_entry Sample.schema 5 30 "Zed" "MIDDLE" in
  entry.*1 = Sample.schema
  /\ (forall label v, (label, v) ∈ entry -> indicator_of "champion_" label = true ->
        v = 0%Q)
  /\ (forall label v, (label, v) ∈ entry -> indicator_of "role_" label = true ->
        (label = "role_MIDDLE" /\ v = 1%Q) \/ v = 0%Q).
Proof.
  assert (NoDup Sample.schema) as Hnd.
  { refine (bool_decide_unpack (NoDup Sample.schema) _). vm_compute. exact I. }
  destruct (synthetic_entry_indicators Sample.schema 5 30 "Zed" "MIDDLE" Hnd)
    as (_ & Hcols & _ & _ & Hrole & _ & Hchamp & _).
  split; [|split].
  - apply Hcols; refine (bool_decide_unpack _ _); vm_compute; exact I.
  - apply Hchamp. refine (bool_decide_unpack _ _). vm_compute. exact I.
  - exact Hrole.
Defined.



(** C7: a player who won every match. [trainModel] returns a forest fitted
    on wins only, which answers a row with a single probability, and the
    scenario predictor, reading the probability of a win at position 1 of
    that row, raises [IndexError]: it returns no prediction where the
    table, with two champions and two lanes, calls for four. *)
Theorem predictByMostPlayed_fails_after_wins_only :
  exists forest x_train x_test y_train y_test df_encoded,
    model.trainModel (sk := Sample.by_classes) Sample.streak 7%nat
      = (Ok (forest, x_train, x_test, y_train, y_test, df_encoded), 7%nat)
    /\ y_train = [1%Q; 1%Q]
    /\ forest = [1%Q]
    /\ model.predictByMostPlayed (sk := Sample.by_classes) forest x_train Sample.streak
       = Raise IndexError
    /\ (Nat.min 3 (length (model.unique (model.champion <$> Sample.streak)))
        * Nat.min 2 (length (model.unique (model.role <$> Sample.streak))))%nat = 4%nat.
Proof.
  do 6 eexists. split; [vm_compute; reflexivity|].
  vm_compute. repeat split.
Qed.

End Witnesses.

(** ** Further properties of the feature extractor *)

Section ExtractorEffects.
Import api_utils data_processing Spec.
Context {net : Network}.

Lemma getMatchDetails_effects (match_id : string) (w : World.t) :
  exists w',
    getMatchDetails match_id w = (Ok (record_at (World.requests_made w) match_id), w')
    /\ World.requests_made w' = S (World.requests_made w)
    /\ World.progress_reports w' = World.progress_reports w
    /\ World.st_errors w' =
         World.st_errors w ++ failure_at (World.requests_made w) match_id
    /\ World.stdout w' = World.stdout w ++ failure_at (World.requests_made w) match_id
    /\ World.slept w' =
         (World.slept w
          + match network (World.requests_made w) (match_url match_id) with
            | Responds _ => 1
            | Fails _ => 0
            end)%nat.
Proof.
  destruct (getMatchDetails_step match_id w) as (w' & Hrun & Hreq & Hprog).
  exists w'. split; [exact Hrun|]. split; [exact Hreq|]. split; [exact Hprog|].
  pose proof (getMatchDetails_slept match_id w) as Hslept. rewrite Hrun in Hslept.
  split; [|split; [|exact Hslept]];
    rewrite getMatchDetails_run in Hrun; unfold failure_at;
    destruct (network _ _) as [r|e]; simpl in Hrun.
  - destruct (error_status r); [|destruct (body r)];
      injection Hrun as _ <-; simpl; rewrite ?app_nil_r; reflexivity.
  - injection Hrun as _ <-. reflexivity.
  - destruct (error_status r); [|destruct (body r)];
      injection Hrun as _ <-; simpl; rewrite ?app_nil_r; reflexivity.
  - injection Hrun as _ <-. reflexivity.
Qed.

Lemma answered_from_le (n : nat) (matches : list string) :
  (answered_from n matches <= length matches)%nat.
Proof.
  revert n. induction matches as [|match_id rest IH]; intros n; simpl; [lia|].
  specialize (IH (S n)). destruct (network _ _); lia.
Qed.

Lemma process_loop_effects (puuid : string) (total : nat) (matches : list string) :
  forall (i : nat) (data : list row) (w : World.t),
    total = (i + length matches)%nat ->
    Forall (fun m => well_formed_match puuid m = true)
      (records_from (World.requests_made w) matches) ->
    exists df w',
      process_loop puuid total i matches data w = (Ok df, w')
      /\ World.requests_made w' = (World.requests_made w + length matches)%nat
      /\ World.slept w' =
           (World.slept w + answered_from (World.requests_made w) matches)%nat
      /\ World.st_errors w' =
           World.st_errors w ++ failures_from (World.requests_made w) matches
      /\ World.stdout w' =
           World.stdout w ++ failures_from (World.requests_made w) matches.
Proof.
  induction matches as [|match_id rest IH]; intros i data w Htotal Hwf.
  - exists data, w. simpl. rewrite !app_nil_r, !Nat.add_0_r. auto.
  - rewrite records_from_cons in Hwf. apply Forall_cons in Hwf as [Hm Hrest].
    destruct (getMatchDetails_effects match_id w)
      as (w1 & Hrun & Hreq & Hprog & Herr & Hout & Hslept).
    destruct (scan_match_ok puuid _ data Hm) as [rows [Hscan _]].
    assert (total <> 0%nat) as Hne by (simpl in Htotal; lia).
    set (w2 := World.report (fraction total i) w1).
    destruct (IH (S i) (data ++ rows) w2) as (df & w' & Hloop & Hreq' & Hslept' & Herr' & Hout').
    { simpl in Htotal. lia. }
    { subst w2. simpl. rewrite Hreq. exact Hrest. }
    exists df, w'. split.
    { simpl. unfold mbind, ST_bind, bind. rewrite Hrun.
      unfold lift. rewrite Hscan, (progress_fraction total i Hne).
      unfold progress. fold w2. exact Hloop. }
    subst w2. simpl in Hreq', Hslept', Herr', Hout'.
    rewrite Hreq in Hreq', Hslept', Herr', Hout'.
    simpl. rewrite Hreq', Hslept', Herr', Hout', Hslept, Herr, Hout, <- !app_assoc.
    repeat split; lia.
Qed.

(** X1: a run over well-formed records issues exactly one request per
    match id, sleeps one second per answered request (so never more than
    one second per match), and shows and prints one message per failed
    fetch, the same messages in the same order, and nothing else. *)
Theorem processMatches_effects (puuid : string) (matches : list string) (w : World.t) :
  Forall (fun m => well_formed_match puuid m = true)
    (records_from (World.requests_made w) matches) ->
  exists df w',
    processMatches puuid matches w = (Ok df, w')
    /\ World.requests_made w' = (World.requests_made w + length matches)%nat
    /\ World.slept w' = (World.slept w + answered_from (World.requests_made w) matches)%nat
    /\ (World.slept w' <= World.slept w + length matches)%nat
    /\ World.st_errors w' =
         World.st_errors w ++ failures_from (World.requests_made w) matches
    /\ World.stdout w' = World.stdout w ++ failures_from (World.requests_made w) matches.
Proof.
  intros Hwf.
  destruct (process_loop_effects puuid (length matches) matches 0 [] w eq_refl Hwf)
    as (df & w' & Hrun & Hreq & Hslept & Herr & Hout).
  exists df, w'. repeat split; try assumption.
  rewrite Hslept. pose proof (answered_from_le (World.requests_made w) matches). lia.
Qed.

(** Whether a scan raises does not depend on the rows collected so far. *)
Lemma scan_players_raise (puuid : string) (m : json) (players : list json)
    (data1 data2 : list row) (e : exn) :
  scan_players puuid m players data1 = Raise e ->
  scan_players puuid m players data2 = Raise e.
Proof.
  induction players as [|player rest IH]; simpl; [discriminate|].
  destruct (subscript player "puuid") as [p|]; simpl; [|auto].
  destruct (eq_str p puuid); [|exact IH].
  destruct (build_row player m); simpl; [discriminate|auto].
Qed.

Lemma scan_match_raise (puuid : string) (m : json) (data1 data2 : list row) (e : exn) :
  scan_match puuid m data1 = Raise e -> scan_match puuid m data2 = Raise e.
Proof.
  unfold scan_match.
  destruct (py_get m "info" (JDict ∅)) as [info|]; simpl; [|auto].
  destruct (py_get info "participants" (JList [])) as [parts|]; simpl; [|auto].
  destruct (py_iter parts) as [players|]; simpl; [|auto].
  apply scan_players_raise.
Qed.

Lemma process_loop_abort (puuid : string) (total : nat) (matches : list string) :
  forall (k i : nat) (data : list row) (w : World.t) (match_id : string) (e : exn),
    total = (i + length matches)%nat ->
    matches !! k = Some match_id ->
    Forall (fun m => well_formed_match puuid m = true)
      (take k (records_from (World.requests_made w) matches)) ->
    scan_match puuid (record_at (World.requests_made w + k) match_id) [] = Raise e ->
    exists w',
      process_loop puuid total i matches data w = (Raise e, w')
      /\ World.progress_reports w' =
           World.progress_reports w ++ (fraction total <$> seq i k)
      /\ World.requests_made w' = S (World.requests_made w + k).
Proof.
  induction matches as [|first rest IH]; intros k i data w match_id e Htotal Hk Hwf Hraise.
  - discriminate.
  - destruct (getMatchDetails_step first w) as (w1 & Hrun & Hreq & Hprog).
    destruct k as [|k].
    + injection Hk as ->. rewrite Nat.add_0_r in Hraise.
      exists w1. split; [|split].
      * simpl. unfold mbind, ST_bind, bind. rewrite Hrun. unfold lift.
        rewrite (scan_match_raise _ _ [] data e Hraise). reflexivity.
      * rewrite Hprog. simpl. rewrite app_nil_r. reflexivity.
      * rewrite Hreq. lia.
    + rewrite records_from_cons in Hwf. simpl in Hwf.
      apply Forall_cons in Hwf as [Hm Hrest]. simpl in Hk.
      destruct (scan_match_ok puuid _ data Hm) as [rows [Hscan _]].
      assert (total <> 0%nat) as Hne by (simpl in Htotal; lia).
      set (w2 := World.report (fraction total i) w1).
      destruct (IH k (S i) (data ++ rows) w2 match_id e) as (w' & Hloop & Hrep & Hreq').
      { simpl in Htotal. lia. }
      { exact Hk. }
      { subst w2. simpl. rewrite Hreq. exact Hrest. }
      { subst w2. simpl. rewrite Hreq.
        replace (S (World.requests_made w) + k)%nat
          with (World.requests_made w + S k)%nat by lia. exact Hraise. }
      exists w'. split; [|split].
      * simpl. unfold mbind, ST_bind, bind. rewrite Hrun.
        unfold lift. rewrite Hscan, (progress_fraction total i Hne).
        unfold progress. fold w2. exact Hloop.
      * rewrite Hrep. subst w2. simpl. rewrite Hprog, <- app_assoc. reflexivity.
      * rewrite Hreq'. subst w2. simpl. rewrite Hreq. lia.
Qed.

(** X2: when the records before position [k] are well formed and the scan
    of the record at position [k] raises, the whole run raises that
    exception: no table is returned, the rows of the earlier matches
    included; [k + 1] requests were issued, the progress bar stopped at
    [k / n], and the later matches are never fetched. *)
Theorem processMatches_aborts (puuid : string) (matches : list string) (k : nat)
    (match_id : string) (e : exn) (w : World.t) :
  matches !! k = Some match_id ->
  Forall (fun m => well_formed_match puuid m = true)
    (take k (records_from (World.requests_made w) matches)) ->
  scan_match puuid (record_at (World.requests_made w + k) match_id) [] = Raise e ->
  exists w',
    processMatches puuid matches w = (Raise e, w')
    /\ World.progress_reports w' =
         World.progress_reports w ++ (fraction (length matches) <$> seq 0 k)
    /\ World.requests_made w' = S (World.requests_made w + k).
Proof.
  intros Hk Hwf Hraise.
  apply (process_loop_abort puuid (length matches) matches k 0 [] w match_id e);
    auto.
Qed.

Lemma record_at_stateless (n : nat) (match_id : string) :
  stateless net -> record_at n match_id = record_at 0 match_id.
Proof.
  intros Hnet. unfold record_at. rewrite !getMatchDetails_run. simpl.
  rewrite (Hnet n). destruct (network 0 _) as [r|e]; simpl; [|reflexivity].
  destruct (error_status r); [reflexivity|]. destruct (body r); reflexivity.
Qed.

Lemma process_loop_stateless (puuid : string) (total : nat) (matches : list string) :
  stateless net ->
  forall (i : nat) (data : list row) (w1 w2 : World.t),
    (process_loop puuid total i matches data w1).1
    = (process_loop puuid total i matches data w2).1.
Proof.
  intros Hnet. induction matches as [|match_id rest IH]; intros i data w1 w2.
  - reflexivity.
  - destruct (getMatchDetails_step match_id w1) as (w1' & Hrun1 & _).
    destruct (getMatchDetails_step match_id w2) as (w2' & Hrun2 & _).
    rewrite (record_at_stateless _ _ Hnet) in Hrun1.
    rewrite (record_at_stateless _ _ Hnet) in Hrun2.
    simpl. unfold mbind, ST_bind, bind. rewrite Hrun1, Hrun2. unfold lift.
    destruct (scan_match puuid _ data) as [data'|]; [|reflexivity].
    destruct (py_truediv _ _) as [q|]; [|reflexivity].
    unfold progress. apply IH.
Qed.

(** X3: against a network whose answers do not change over time,
    extraction is repeatable: two runs on the same player and match list
    return the same table (or raise the same exception), whatever the
    worlds they start from. *)
Theorem processMatches_repeatable (puuid : string) (matches : list string)
    (w1 w2 : World.t) :
  stateless net ->
  (processMatches puuid matches w1).1 = (processMatches puuid matches w2).1.
Proof.
  intros Hnet. apply process_loop_stateless. exact Hnet.
Qed.

(** The kda of a row with integer statistics. *)
Lemma kda_value (player m : json) (r : row) (k d a : Z) :
  build_row player m = Ok r ->
  kills r = JInt k -> deaths r = JInt d -> assists r = JInt a ->
  kda r = Qred (inject_Z (k + a) / inject_Z (if d =? 0 then 1 else d)).
Proof.
  intros Hrow Hk Hd Ha.
  destruct (build_row_inv player m r Hrow)
    as (p & dm & info & secs & _ & _ & _ & _ & _ & _ & _ & _ & _ & _ & Hkda & _).
  rewrite Hk, Hd, Ha in Hkda. simpl in Hkda.
  unfold py_or, py_truediv in Hkda. simpl in Hkda.
  destruct (Z.eqb_spec d 0) as [->|Hne]; simpl in Hkda.
  - injection Hkda as <-. reflexivity.
  - assert (Qeq_bool (inject_Z d) 0 = false) as Hq.
    { destruct (Qeq_bool (inject_Z d) 0) eqn:Hq; [|reflexivity].
      apply Qeq_bool_eq in Hq. unfold Qeq in Hq. simpl in Hq. lia. }
    rewrite Hq in Hkda. injection Hkda as <-. reflexivity.
Qed.

(** X4: in a row with non-negative integer kills, deaths and assists, kda
    is between 0 and kills + assists. *)
Theorem kda_bounds (player m : json) (r : row) (k d a : Z) :
  build_row player m = Ok r ->
  kills r = JInt k -> deaths r = JInt d -> assists r = JInt a ->
  0 <= k -> 0 <= d -> 0 <= a ->
  (0 <= kda r)%Q /\ (kda r <= inject_Z (k + a))%Q.
Proof.
  intros Hrow Hk Hd Ha Hk0 Hd0 Ha0.
  rewrite (kda_value player m r k d a Hrow Hk Hd Ha), Qred_correct.
  set (div := if d =? 0 then 1 else d).
  assert (1 <= div) as Hdiv by (subst div; destruct (Z.eqb_spec d 0); lia).
  assert (0 < inject_Z div)%Q as Hpos.
  { change 0%Q with (inject_Z 0). rewrite <- Zlt_Qlt. lia. }
  split.
  - apply Qle_shift_div_l; [exact Hpos|].
    rewrite Qmult_0_l. change 0%Q with (inject_Z 0). rewrite <- Zle_Qle. lia.
  - apply Qle_shift_div_r; [exact Hpos|].
    rewrite <- inject_Z_mult, <- Zle_Qle. nia.
Qed.

(** X5: the first-blood cell is built by [int]: it is 0 when the record
    has no [firstBloodKill], 1 or 0 when the field is [true] or [false], and
    an integer stored in the field is passed through as it is. *)
Theorem first_blood_flag (p : gmap string json) (m : json) (r : row) :
  build_row (JDict p) m = Ok r ->
  (p !! "firstBloodKill" = None -> first_blood r = 0)
  /\ (forall b, p !! "firstBloodKill" = Some (JBool b) ->
        first_blood r = if b then 1 else 0)
  /\ (forall z, p !! "firstBloodKill" = Some (JInt z) -> first_blood r = z).
Proof.
  intros Hrow.
  destruct (build_row_inv _ m r Hrow)
    as (p' & dm & info & secs & Hp & _ & _ & _ & _ & _ & _ & _ & _ & _ & _ & _
        & _ & _ & _ & _ & Hfb).
  injection Hp as <-.
  repeat split.
  - intros H. rewrite H in Hfb. simpl in Hfb. congruence.
  - intros b H. rewrite H in Hfb. simpl in Hfb. congruence.
  - intros z H. rewrite H in Hfb. simpl in Hfb. congruence.
Qed.

End ExtractorEffects.

(** ** Properties of the cached lookups *)

Section Lookups.
Import api_utils api_lookup Spec.
Context {net : Network}.

(** The body of [getPUUID] and of [getMatches]: one request, whose decoded
    body is returned whatever the status; nothing is slept, shown or
    printed. *)
Lemma fetch_json_run (url : string) (s : Session) :
  (response ← in_world (requests_get url); in_world (response_json response)) s =
    let s1 := with_world (World.count_request (world s)) s in
    match network (World.requests_made (world s)) url with
    | Fails e => (Raise (RequestException e), s1)
    | Responds r =>
        match body r with
        | Some v => (Ok v, s1)
        | None => (Raise (RequestException JSONDecodeError), s1)
        end
    end.
Proof.
  unfold mbind, ST_bind, bind, in_world, requests_get.
  destruct (network _ _) as [r|e]; simpl; [|reflexivity].
  unfold response_json. destruct (body r); reflexivity.
Qed.

(** X6: a call of [getPUUID] that returns stores its value: the same call
    made again returns the same value and changes nothing, so no second
    request is issued, whatever the network would answer by then. At most
    one request is issued by the first call. *)
Theorem getPUUID_cached (player_name tag_line : string) (s s1 : Session) (v : json) :
  getPUUID player_name tag_line s = (Ok v, s1) ->
  getPUUID player_name tag_line s1 = (Ok v, s1)
  /\ puuid_cache s1 !! (player_name, tag_line) = Some v
  /\ (World.requests_made (world s1) <= S (World.requests_made (world s)))%nat.
Proof.
  unfold getPUUID, cache_data. intros Hrun.
  destruct (puuid_cache s !! (player_name, tag_line)) as [v'|] eqn:Hhit.
  - injection Hrun as -> ->. rewrite Hhit. auto.
  - rewrite fetch_json_run in Hrun. simpl in Hrun.
    destruct (network _ _) as [r|e]; [|discriminate].
    destruct (body r) as [v'|]; [|discriminate].
    injection Hrun as -> <-. simpl. rewrite lookup_insert_eq. auto.
Qed.

(** X7: [getPUUID] does not look at the status code. On a first call
    whose request is answered with a JSON body, that body is returned and
    stored even when the status is an error, without sleeping and without a
    message; so an error answer is served again from the cache on every
    later call. *)
Theorem getPUUID_keeps_error_answers (player_name tag_line : string) (s : Session)
    (r : Response) (v : json) :
  puuid_cache s !! (player_name, tag_line) = None ->
  network (World.requests_made (world s)) (account_url player_name tag_line)
    = Responds r ->
  body r = Some v ->
  exists s1,
    getPUUID player_name tag_line s = (Ok v, s1)
    /\ World.slept (world s1) = World.slept (world s)
    /\ World.st_errors (world s1) = World.st_errors (world s)
    /\ World.requests_made (world s1) = S (World.requests_made (world s))
    /\ getPUUID player_name tag_line s1 = (Ok v, s1).
Proof.
  intros Hmiss Hnet Hbody. unfold getPUUID, cache_data at 1. rewrite Hmiss.
  rewrite fetch_json_run. simpl. rewrite Hnet, Hbody.
  eexists. split; [reflexivity|]. simpl. repeat split.
  unfold getPUUID, cache_data. simpl. rewrite lookup_insert_eq. reflexivity.
Qed.

(** X8: unlike [getMatchDetails], [getPUUID] catches nothing. On a first
    call whose request fails, or is answered with a body that is not JSON,
    the exception is raised to the caller; nothing is stored, shown or
    printed, and the next call issues a request again. *)
Theorem getPUUID_failure_propagates (player_name tag_line : string) (s : Session) :
  puuid_cache s !! (player_name, tag_line) = None ->
  (forall r, network (World.requests_made (world s)) (account_url player_name tag_line)
               = Responds r -> body r = None) ->
  exists e s1,
    getPUUID player_name tag_line s = (Raise (RequestException e), s1)
    /\ s1 = with_world (World.count_request (world s)) s
    /\ puuid_cache s1 !! (player_name, tag_line) = None
    /\ match network (World.requests_made (world s)) (account_url player_name tag_line) with
       | Fails e' => e = e'
       | Responds _ => e = JSONDecodeError
       end.
Proof.
  intros Hmiss Hbad. unfold getPUUID, cache_data. rewrite Hmiss.
  rewrite fetch_json_run. simpl.
  destruct (network _ _) as [r|e].
  - rewrite (Hbad r eq_refl). eexists _, _. split; [reflexivity|]. auto.
  - eexists _, _. split; [reflexivity|]. auto.
Qed.

(** X9: [getMatches] keeps one entry per player and count. A call that
    returns is answered from the cache when repeated, leaves the entries of
    other counts and players as they were, and does not touch the account
    cache. *)
Theorem getMatches_cached (puuid : string) (quant : Z) (s s1 : Session) (v : json) :
  getMatches puuid quant s = (Ok v, s1) ->
  getMatches puuid quant s1 = (Ok v, s1)
  /\ (forall key, key <> (puuid, quant) ->
        matches_cache s1 !! key = matches_cache s !! key)
  /\ puuid_cache s1 = puuid_cache s.
Proof.
  unfold getMatches, cache_data. intros Hrun.
  destruct (matches_cache s !! (puuid, quant)) as [v'|] eqn:Hhit.
  - injection Hrun as -> ->. rewrite Hhit. auto.
  - rewrite fetch_json_run in Hrun. simpl in Hrun.
    destruct (network _ _) as [r|e]; [|discriminate].
    destruct (body r) as [v'|]; [|discriminate].
    injection Hrun as -> <-. simpl. rewrite lookup_insert_eq.
    repeat split. intros key Hkey. apply lookup_insert_ne. congruence.
Qed.

End Lookups.

(** ** Further properties of the model *)

Section ModelMore.
Import model Spec.
Context {sk : Sklearn}.

Lemma value_counts_elem_of (l : list string) (v : string) (n : nat) :
  (v, n) ∈ value_counts l <-> v ∈ l /\ n = occurrences v l.
Proof.
  unfold value_counts. rewrite sort_values_descending_Permutation, list_elem_of_fmap.
  split.
  - intros [u [[= -> ->] Hu]]. split; [apply elem_of_unique; exact Hu|reflexivity].
  - intros [Hv ->]. exists v. split; [reflexivity|apply elem_of_unique; exact Hv].
Qed.

Lemma value_counts_labels_NoDup (l : list string) : NoDup (value_counts l).*1.
Proof.
  unfold value_counts. rewrite sort_values_descending_Permutation.
  rewrite <- list_fmap_compose.
  assert ((fst ∘ (fun v => (v, occurrences v l))) <$> unique l = unique l) as ->.
  { induction (unique l) as [|u us IH]; simpl; [reflexivity|]. f_equal. exact IH. }
  apply NoDup_unique.
Qed.

#[local] Instance more_frequent_trans :
  Transitive (fun x y : string * nat => (y.2 <= x.2)%nat).
Proof. intros x y z. simpl. lia. Qed.

(** The values kept by [.head(n)] are the most frequent ones. *)
Lemma head_index_most_frequent (n : nat) (l : list string) (c c' : string) :
  c ∈ head_index n (value_counts l) ->
  c' ∈ l ->
  c' ∉ head_index n (value_counts l) ->
  (occurrences c' l <= occurrences c l)%nat.
Proof.
  unfold head_index. intros Hin Hc' Hout.
  apply list_elem_of_fmap in Hin as [[c0 cnt] [-> Hin]]. simpl.
  assert ((c0, cnt) ∈ value_counts l) as Hvc by (apply (subseteq_take n); exact Hin).
  apply value_counts_elem_of in Hvc as [_ ->].
  assert ((c', occurrences c' l) ∈ value_counts l) as Hvc'
    by (apply value_counts_elem_of; auto).
  rewrite <- (take_drop n (value_counts l)) in Hvc'.
  apply elem_of_app in Hvc' as [Htake|Hdrop].
  - exfalso. apply Hout. apply list_elem_of_fmap. exists (c', occurrences c' l). auto.
  - pose proof (Sorted.Sorted_StronglySorted more_frequent_trans
                  (value_counts_Sorted l)) as Hsorted.
    rewrite <- (take_drop n (value_counts l)) in Hsorted.
    exact (StronglySorted_app_1_elem_of _ _ _ _ _ Hsorted Hin Hdrop).
Qed.

(** X10: the champions and lanes the scenario predictor works on are the
    most played ones: they are distinct, they occur in the table, and no
    champion (lane) left out occurs in more matches than one that is kept. *)
Theorem top_played_are_most_played (df : list MatchFeatureRow) :
  NoDup (top_champions df) /\ NoDup (top_roles df)
  /\ (forall c, c ∈ top_champions df -> c ∈ champion <$> df)
  /\ (forall r, r ∈ top_roles df -> r ∈ role <$> df)
  /\ (forall c c', c ∈ top_champions df -> c' ∈ champion <$> df ->
        c' ∉ top_champions df ->
        (occurrences c' (champion <$> df) <= occurrences c (champion <$> df))%nat)
  /\ (forall r r', r ∈ top_roles df -> r' ∈ role <$> df ->
        r' ∉ top_roles df ->
        (occurrences r' (role <$> df) <= occurrences r (role <$> df))%nat).
Proof.
  unfold top_champions, top_roles. repeat split.
  - unfold head_index. rewrite fmap_take.
    eapply sublist_NoDup; [apply value_counts_labels_NoDup|apply sublist_take].
  - unfold head_index. rewrite fmap_take.
    eapply sublist_NoDup; [apply value_counts_labels_NoDup|apply sublist_take].
  - intros c. apply head_index_elem_of.
  - intros r. apply head_index_elem_of.
  - intros c c'. apply head_index_most_frequent.
  - intros r r'. apply head_index_most_frequent.
Qed.

Lemma unique_nonempty (l : list string) : l <> [] -> unique l <> [].
Proof. destruct l; [contradiction|discriminate]. Qed.

Lemma head_index_nonempty (n : nat) (l : list string) :
  l <> [] -> head_index (S n) (value_counts l) <> [].
Proof.
  intros Hl Hnil. apply (f_equal length) in Hnil.
  rewrite head_index_length in Hnil.
  apply unique_nonempty in Hl. destruct (unique l); [contradiction|].
  simpl in Hnil. lia.
Qed.

(** X11: with a forest that saw one outcome only (a player who won, or
    lost, every match of the training part), the scenario predictor raises
    [IndexError] on every non-empty table: the probability of a win is read
    at position 1 of a row that has one entry. *)
Theorem predictByMostPlayed_one_class (forest : classifier) (x : Frame)
    (df : list MatchFeatureRow) :
  df <> [] ->
  one_class forest ->
  predictByMostPlayed forest x df = Raise IndexError.
Proof.
  intros Hdf Hforest. unfold predictByMostPlayed.
  rewrite !column_ok by assumption. simpl.
  assert (champion <$> df <> []) as Hc by (destruct df; [contradiction|discriminate]).
  assert (role <$> df <> []) as Hr by (destruct df; [contradiction|discriminate]).
  pose proof (head_index_nonempty 2 _ Hc) as Hchamps.
  pose proof (head_index_nonempty 1 _ Hr) as Hroles.
  destruct (head_index 3 _) as [|champ champs]; [contradiction|].
  destruct (head_index 2 _) as [|role_ roles]; [contradiction|].
  simpl.
  destruct (Hforest (synthetic_entry (columns x) (mean (kda <$> df))
                       (mean (duration <$> df)) champ role_)) as [p ->].
  reflexivity.
Qed.

(** X12: [trainModel] needs two rows. On the empty table the encoder
    finds no champion column and [KeyError] is raised; on a table of one row
    the split would leave the training part empty and [ValueError] is
    raised. In both cases the global generator is left as it was. *)
Theorem trainModel_needs_two_rows (df : list MatchFeatureRow) (g : rng) :
  (length df < 2)%nat ->
  exists e,
    trainModel df g = (Raise e, g)
    /\ (df = [] -> exists key, e = KeyError key)
    /\ (df <> [] -> e = ValueError).
Proof.
  intros Hlen. destruct df as [|r [|r' df]]; [| |simpl in Hlen; lia].
  { exists (KeyError "champion"). split; [reflexivity|]. split; [eauto|congruence]. }
  exists ValueError. split; [|split; [discriminate|reflexivity]].
  unfold trainModel, mbind, ST_bind, bind, lift.
  rewrite get_dummies_eq by discriminate.
  unfold drop_column, get_column. cbn [columns rows].
  rewrite bool_decide_eq_true_2 by (apply list_elem_of_here).
  change (list_find (fun c => c = "win") (other_columns ++ _))
    with (Some (0%nat, "win")).
  reflexivity.
Qed.

Lemma iloc_lookup {A} (l : list A) (positions : list nat) (out : list A) :
  iloc l positions = Ok out ->
  Forall2 (fun i a => l !! i = Some a) positions out.
Proof.
  unfold iloc. revert out. induction positions as [|i positions IH]; simpl; intros out.
  - intros [= <-]. constructor.
  - destruct (l !! i) as [a|] eqn:Ha; simpl; [|discriminate].
    destruct (mapM _ positions) as [rest|]; simpl; [|discriminate].
    intros [= <-]. constructor; [exact Ha|]. apply IH. reflexivity.
Qed.

Lemma lookups_fmap {A} (d : A) (l : list A) (positions : list nat) (out : list A) :
  Forall2 (fun i a => l !! i = Some a) positions out ->
  out = (fun i => default d (l !! i)) <$> positions.
Proof.
  induction 1 as [|i a positions out Hi _ IH]; simpl; [reflexivity|].
  rewrite Hi, IH. reflexivity.
Qed.

Lemma lookups_all {A} (d : A) (l : list A) :
  (fun i => default d (l !! i)) <$> seq 0 (length l) = l.
Proof.
  apply list_eq. intros i. rewrite list_lookup_fmap.
  destruct (decide (i < length l)%nat) as [Hlt|Hge].
  - rewrite lookup_seq_lt by assumption. simpl.
    destruct (lookup_lt_is_Some_2 l i Hlt) as [a Ha]. rewrite Ha. reflexivity.
  - rewrite lookup_seq_ge by lia. simpl. symmetry. apply lookup_ge_None. lia.
Qed.

(** Reading a list at a shuffle of its positions gives a shuffle of the
    list. *)
Lemma lookups_Permutation {A} (l : list A) (positions : list nat) (out : list A) :
  positions ≡ₚ seq 0 (length l) ->
  Forall2 (fun i a => l !! i = Some a) positions out ->
  out ≡ₚ l.
Proof.
  intros Hperm Hout. destruct l as [|d l].
  - simpl in Hperm. apply Permutation_nil_r in Hperm. subst positions.
    inversion Hout. reflexivity.
  - rewrite (lookups_fmap d _ _ _ Hout), Hperm. rewrite lookups_all. reflexivity.
Qed.

Lemma lookups_zip {A B} (l : list A) (k : list B) (positions : list nat)
    (out : list A) (out' : list B) :
  Forall2 (fun i a => l !! i = Some a) positions out ->
  Forall2 (fun i b => k !! i = Some b) positions out' ->
  Forall2 (fun i ab => zip l k !! i = Some ab) positions (zip out out').
Proof.
  intros H. revert out'. induction H as [|i a positions out Hi _ IH]; intros out' H'.
  - inversion H'. constructor.
  - inversion H' as [|? b ? out'' Hb Hrest]; subst. simpl. constructor.
    + rewrite lookup_zip_with, Hi. simpl. rewrite Hb. reflexivity.
    + apply IH. exact Hrest.
Qed.

(** X13: the split is a partition of the table. On a table of at least
    two rows, the training and test parts have the columns of the encoded
    table without [win], and their rows, each paired with its label,
    are together a rearrangement of the rows of the table paired with their
    [win] cells: no row is lost, none is used twice, and every row keeps
    its own label. *)
Theorem trainModel_partition (df : list MatchFeatureRow) (g : rng) :
  (2 <= length df)%nat ->
  exists forest x_train x_test y_train y_test df_encoded x y,
    trainModel df g = (Ok (forest, x_train, x_test, y_train, y_test, df_encoded), g)
    /\ drop_column "win" df_encoded = Ok x
    /\ get_column "win" df_encoded = Ok y
    /\ y = (fun r => Q_of_bool (win r)) <$> df
    /\ columns x_train = columns x /\ columns x_test = columns x
    /\ ("win" ∉ columns x)
    /\ (zip (rows x_train) y_train ++ zip (rows x_test) y_test) ≡ₚ zip (rows x) y.
Proof.
  intros Hlen.
  assert (df <> []) as Hdf by (destruct df; simpl in Hlen; [lia|discriminate]).
  unfold trainModel, mbind, ST_bind, bind, lift.
  rewrite (get_dummies_eq df Hdf).
  set (enc := {| columns := _; rows := _ |}).
  assert (exists x, drop_column "win" enc = Ok x
                    /\ columns x = filter (fun c => c <> "win") (columns enc)
                    /\ length (rows x) = length df) as (x & Hx & Hxcols & Hxlen).
  { unfold drop_column. rewrite bool_decide_eq_true_2 by (apply list_elem_of_here).
    eexists. split; [reflexivity|]. simpl. rewrite !length_fmap. auto. }
  assert (get_column "win" enc = Ok ((fun r => Q_of_bool (win r)) <$> df)) as Hy.
  { unfold get_column. subst enc. cbn [columns rows].
    change (list_find (fun c => c = "win") (other_columns ++ _))
      with (Some (0%nat, "win")).
    cbv beta iota. rewrite <- list_fmap_compose. reflexivity. }
  rewrite Hx, Hy. set (y := _ <$> df).
  assert (length y = length df) as Hylen by (subst y; apply length_fmap).
  unfold train_test_split. rewrite Hxlen.
  pose proof (test_count_bounds (length df)) as [Hlo Hhi].
  set (n_test := Z.to_nat _) in *.
  destruct (Nat.eqb_spec (length df - n_test) 0) as [Hzero|_]; [lia|].
  unfold check_random_state.
  destruct (permutation (RandomState 42) (length df)) as [perm g'] eqn:Hperm.
  pose proof (permutation_positions (RandomState 42) (length df)) as [Hplen Hpos].
  pose proof (permutation_spec (RandomState 42) (length df)) as Hshuffle.
  rewrite Hperm in Hplen, Hpos, Hshuffle. simpl in Hplen, Hpos, Hshuffle.
  set (ind_train := take (length df - n_test) (drop n_test perm)).
  set (ind_test := take n_test perm).
  assert (ind_test ++ ind_train = perm) as Hsplit.
  { subst ind_test ind_train. rewrite (take_ge (drop n_test perm)).
    - apply take_drop.
    - rewrite length_drop. lia. }
  destruct (iloc_ok (rows x) ind_train) as (x_train & Hxtrain & _).
  { rewrite Hxlen. apply Forall_take, Forall_drop. exact Hpos. }
  destruct (iloc_ok (rows x) ind_test) as (x_test & Hxtest & _).
  { rewrite Hxlen. apply Forall_take. exact Hpos. }
  destruct (iloc_ok y ind_train) as (y_train & Hytrain & _).
  { rewrite Hylen. apply Forall_take, Forall_drop. exact Hpos. }
  destruct (iloc_ok y ind_test) as (y_test & Hytest & _).
  { rewrite Hylen. apply Forall_take. exact Hpos. }
  rewrite Hxtrain, Hxtest, Hytrain, Hytest. simpl.
  unfold RandomForestClassifier_fit, check_random_state.
  destruct (forest_fit _ _ _) as [forest g''] eqn:Hfit. simpl.
  exists forest, {| columns := columns x; rows := x_train |},
    {| columns := columns x; rows := x_test |}, y_train, y_test, enc, x, y.
  split; [reflexivity|]. split; [exact Hx|]. split; [exact Hy|].
  split; [reflexivity|]. split; [reflexivity|]. split; [reflexivity|]. split.
  - rewrite Hxcols, list_elem_of_filter. intros [Hne _]. apply Hne. reflexivity.
  - simpl. rewrite Permutation_app_comm.
    apply (lookups_Permutation (zip (rows x) y) (ind_test ++ ind_train)).
    + rewrite Hsplit, length_zip_with, Hxlen, Hylen, Nat.min_id. exact Hshuffle.
    + apply Forall2_app; apply lookups_zip; apply iloc_lookup; assumption.
Qed.

Lemma setitem_elem_of (entry : list (string * Q)) (label : string) (v : Q) :
  (label, v) ∈ setitem entry label v.
Proof.
  unfold setitem. destruct (bool_decide (label ∈ entry.*1)) eqn:Hin.
  - apply bool_decide_eq_true in Hin.
    apply list_elem_of_fmap in Hin as [[c x] [Hc Hcell]]. simpl in Hc. subst c.
    apply list_elem_of_fmap. exists (label, x). simpl.
    rewrite bool_decide_eq_true_2 by reflexivity. auto.
  - apply elem_of_app. right. apply list_elem_of_here.
Qed.

Lemma setitem_other (entry : list (string * Q)) (label : string) (v : Q)
    (c : string) (x : Q) :
  (c, x) ∈ entry -> c <> label -> (c, x) ∈ setitem entry label v.
Proof.
  intros Hcell Hne. unfold setitem. destruct (bool_decide (label ∈ entry.*1)).
  - apply list_elem_of_fmap. exists (c, x). simpl.
    rewrite bool_decide_eq_false_2 by assumption. auto.
  - apply elem_of_app. left. exact Hcell.
Qed.

Lemma set_if_present_other (entry : list (string * Q)) (label : string) (v : Q)
    (c : string) (x : Q) :
  (c, x) ∈ entry -> c <> label -> (c, x) ∈ set_if_present entry label v.
Proof.
  intros Hcell Hne. unfold set_if_present. destruct (bool_decide _); [|exact Hcell].
  apply setitem_other; assumption.
Qed.

Lemma setitem_length (entry : list (string * Q)) (label : string) (v : Q) :
  length (setitem entry label v) =
    (length entry + if bool_decide (label ∈ entry.*1) then 0 else 1)%nat.
Proof.
  unfold setitem. destruct (bool_decide _).
  - rewrite length_fmap. lia.
  - rewrite length_app. reflexivity.
Qed.

Lemma set_if_present_length (entry : list (string * Q)) (label : string) (v : Q) :
  length (set_if_present entry label v) = length entry.
Proof.
  unfold set_if_present. destruct (bool_decide _) eqn:Hin; [|reflexivity].
  rewrite setitem_length, Hin. lia.
Qed.

(** X14: in the synthetic row the kda and duration cells hold the two
    averages and nothing else holds under those labels. A schema that lacks
    one of the two labels does not make the assignment fail: the label is
    added as a new column, so the row then has more columns than the
    schema. *)
Theorem synthetic_entry_numeric (cols : list string) (kda_average time_average : Q)
    (champ role_ : string) :
  let entry := synthetic_entry cols kda_average time_average champ role_ in
  ("kda", kda_average) ∈ entry
  /\ ("duration", time_average) ∈ entry
  /\ (forall v, ("kda", v) ∈ entry -> v = kda_average)
  /\ (forall v, ("duration", v) ∈ entry -> v = time_average)
  /\ length entry =
       (length cols
        + (if bool_decide ("kda" ∈ cols) then 0 else 1)
        + (if bool_decide ("duration" ∈ cols) then 0 else 1))%nat.
Proof.
  intros entry. subst entry. rewrite synthetic_entry_unfold.
  split; [|split; [|split; [|split]]].
  - apply set_if_present_other; [|discriminate].
    apply set_if_present_other; [|discriminate].
    apply setitem_other; [|discriminate]. apply setitem_elem_of.
  - apply set_if_present_other; [|discriminate].
    apply set_if_present_other; [|discriminate]. apply setitem_elem_of.
  - intros v Hcell.
    apply set_if_present_cell in Hcell as [(Hl & _)|(_ & Hcell)]; [discriminate|].
    apply set_if_present_cell in Hcell as [(Hl & _)|(_ & Hcell)]; [discriminate|].
    apply setitem_cell in Hcell as [[Hl _]|[_ Hcell]]; [discriminate|].
    apply setitem_cell in Hcell as [[_ ->]|[Hne _]]; [reflexivity|].
    exfalso. apply Hne. reflexivity.
  - intros v Hcell.
    apply set_if_present_cell in Hcell as [(Hl & _)|(_ & Hcell)]; [discriminate|].
    apply set_if_present_cell in Hcell as [(Hl & _)|(_ & Hcell)]; [discriminate|].
    apply setitem_cell in Hcell as [[_ ->]|[Hne _]]; [reflexivity|].
    exfalso. apply Hne. reflexivity.
  - rewrite !set_if_present_length, !setitem_length.
    unfold zeros at 1. rewrite length_fmap, zeros_labels.
    assert (bool_decide ("duration" ∈ (setitem (zeros cols) "kda" kda_average).*1)
            = bool_decide ("duration" ∈ cols)) as ->; [|lia].
    apply bool_decide_ext. split.
    + intros [Hin|Heq]%setitem_labels; [|discriminate].
      rewrite zeros_labels in Hin. exact Hin.
    + intros Hin. apply list_elem_of_fmap. exists ("duration", 0%Q).
      split; [reflexivity|]. apply setitem_other; [|discriminate].
      unfold zeros. apply list_elem_of_fmap. exists "duration". auto.
Qed.

Lemma flat_map_singleton {A B} (g : A -> B) (l : list A) :
  flat_map (fun a => [g a]) l = g <$> l.
Proof. induction l as [|a l IH]; simpl; [reflexivity|]. rewrite IH. reflexivity. Qed.

(** A run of the scenario predictor with a forest that saw both
    outcomes. *)
Lemma predictByMostPlayed_run (forest : classifier) (x : Frame)
    (df : list MatchFeatureRow) :
  df <> [] ->
  two_classes forest ->
  predictByMostPlayed forest x df = Ok (scenarios forest x df).
Proof.
  intros Hdf Hforest. unfold predictByMostPlayed, scenarios.
  rewrite !column_ok by assumption. simpl.
  rewrite (for_each_app
             (fun champ =>
                (fun role_ => (champ, role_name role_,
                               scenario_percent forest x df champ role_))
                <$> top_roles df)); [reflexivity|].
  intros champ acc _.
  rewrite (for_each_app
             (fun role_ => [(champ, role_name role_,
                             scenario_percent forest x df champ role_)])).
  - rewrite flat_map_singleton. reflexivity.
  - intros role_ acc' _. unfold scenario_percent.
    destruct (Hforest (synthetic_entry (columns x) (mean (kda <$> df))
                         (mean (duration <$> df)) champ role_))
      as (lose & win_ & -> & _). reflexivity.
Qed.

End ModelMore.

(** ** Properties of the credits panel *)

Section Credits.
Import streamlit credits Spec.

Ltac credits_step :=
  repeat first
    [ rewrite lookup_insert_eq
    | match goal with H : ?st !! "show_credits" = _ |- _ => rewrite H end
    | match goal with H : truthy ?v = _ |- _ => rewrite H end
    | progress cbn [fst snd page session_state default id negb xorb andb
                    credit_btn close_credits_btn truthy] ].

Lemma display_credits_spec (clicks : Clicks) (app : App) :
  let run := display_credits_if_active clicks app in
  is_Some (session_state run.2 !! "show_credits")
  /\ (forall key, key <> "show_credits" ->
        session_state run.2 !! key = session_state app !! key)
  /\ page run.2 =
       page app ++ [Markdown "credit_btn_css"; Button "credit_btn"]
         ++ (if credits_shown clicks app then [credits_panel] else [])
  /\ run.1 = (if credits_shown clicks app && close_credits_btn clicks
              then Reruns else Returns)
  /\ truthy (show_credits run.2) =
       credits_shown clicks app && negb (close_credits_btn clicks).
Proof.
  unfold display_credits_if_active, credits_shown, show_credits, show_credits_button,
    credits_panel, put, assign.
  destruct clicks as [clicked closed]. destruct app as [pg st].
  cbn [page session_state credit_btn close_credits_btn].
  destruct (st !! "show_credits") as [v|] eqn:Hflag.
  - rewrite bool_decide_eq_false_2 by discriminate.
    destruct clicked; credits_step; destruct (truthy v) eqn:Hv; credits_step;
      try (destruct closed); credits_step; rewrite <- ?app_assoc;
      (split; [eauto|]);
      (split; [intros key Hkey; rewrite ?lookup_insert_ne by congruence; reflexivity|]);
      repeat split; reflexivity.
  - rewrite bool_decide_eq_true_2 by reflexivity.
    destruct clicked; credits_step;
      try (destruct closed); credits_step; rewrite <- ?app_assoc;
      (split; [eauto|]);
      (split; [intros key Hkey; rewrite ?lookup_insert_ne by congruence; reflexivity|]);
      repeat split; reflexivity.
Qed.

(** X18: after every run of [display_credits_if_active] the session has
    the [show_credits] flag; the page gets the style sheet and the credits
    button, and the credits panel exactly when the flag, toggled if the
    button was clicked, is set; and the script is restarted exactly when the
    panel is shown and its closing button was clicked. *)
Theorem credits_panel_follows_flag (clicks : Clicks) (app : App) :
  let run := display_credits_if_active clicks app in
  is_Some (session_state run.2 !! "show_credits")
  /\ page run.2 =
       page app ++ [Markdown "credit_btn_css"; Button "credit_btn"]
         ++ (if credits_shown clicks app then [credits_panel] else [])
  /\ run.1 = (if credits_shown clicks app && close_credits_btn clicks
              then Reruns else Returns).
Proof.
  destruct (display_credits_spec clicks app) as (Hkey & _ & Hpage & Hend & _).
  auto.
Qed.

(** X19: clicking the credits button in two runs in a row, without closing
    the panel, brings the flag back to where it was: exactly one of the two
    runs shows the panel, and neither restarts the script. *)
Theorem credits_toggle_twice (clicks1 clicks2 : Clicks) (app : App) :
  credit_btn clicks1 = true -> close_credits_btn clicks1 = false ->
  credit_btn clicks2 = true -> close_credits_btn clicks2 = false ->
  let run1 := display_credits_if_active clicks1 app in
  let run2 := display_credits_if_active clicks2 run1.2 in
  truthy (show_credits run2.2) = truthy (show_credits app)
  /\ credits_shown clicks2 run1.2 = negb (credits_shown clicks1 app)
  /\ run1.1 = Returns /\ run2.1 = Returns.
Proof.
  intros Hc1 Hx1 Hc2 Hx2 run1 run2.
  destruct (display_credits_spec clicks1 app) as (_ & _ & _ & Hend1 & Hflag1).
  destruct (display_credits_spec clicks2 run1.2) as (_ & _ & _ & Hend2 & Hflag2).
  fold run1 in Hend1, Hflag1. fold run2 in Hend2, Hflag2.
  rewrite Hx1, andb_false_r in Hend1. rewrite Hx2, andb_false_r in Hend2.
  rewrite Hx1, andb_true_r in Hflag1. rewrite Hx2, andb_true_r in Hflag2.
  assert (credits_shown clicks2 run1.2 = negb (credits_shown clicks1 app)) as Hshown.
  { unfold credits_shown at 1. rewrite Hflag1, Hc2. apply xorb_true_r. }
  repeat split; try assumption.
  rewrite Hflag2, Hshown. unfold credits_shown. rewrite Hc1, xorb_true_r.
  apply negb_involutive.
Qed.

(** X20: closing the panel clears the flag and restarts the script, and
    the run that follows on a new page, with no button clicked, shows the
    credits button and no panel, and returns. *)
Theorem credits_close (clicks : Clicks) (app : App) (new_page : list widget) :
  credits_shown clicks app = true ->
  close_credits_btn clicks = true ->
  let run := display_credits_if_active clicks app in
  let next :=
    display_credits_if_active {| credit_btn := false; close_credits_btn := false |}
      {| page := new_page; session_state := session_state run.2 |} in
  run.1 = Reruns
  /\ truthy (show_credits run.2) = false
  /\ next.1 = Returns
  /\ page next.2 = new_page ++ [Markdown "credit_btn_css"; Button "credit_btn"]
  /\ truthy (show_credits next.2) = false.
Proof.
  intros Hshown Hclose run next.
  destruct (display_credits_spec clicks app) as (_ & _ & _ & Hend & Hflag).
  fold run in Hend, Hflag.
  rewrite Hshown, Hclose in Hend, Hflag. simpl in Hend, Hflag.
  destruct (display_credits_spec {| credit_btn := false; close_credits_btn := false |}
              {| page := new_page; session_state := session_state run.2 |})
    as (_ & _ & Hpage & Hend' & Hflag').
  fold next in Hpage, Hend', Hflag'.
  assert (credits_shown {| credit_btn := false; close_credits_btn := false |}
            {| page := new_page; session_state := session_state run.2 |} = false) as Hnot.
  { unfold credits_shown, show_credits. cbn [session_state credit_btn].
    unfold show_credits in Hflag. rewrite Hflag. reflexivity. }
  rewrite Hnot in Hpage, Hend', Hflag'. simpl in Hend', Hflag', Hpage.
  auto.
Qed.

End Credits.

(** ** Properties of the charts *)

Section Charts.
Import model streamlit visualization Spec.

#[local] Instance by_value_trans : Transitive by_value.
Proof. intros a b c. unfold by_value. apply Qle_trans. Qed.

Lemma insert_value_Permutation (a : string * Q) (sorted : list (string * Q)) :
  insert_value a sorted ≡ₚ a :: sorted.
Proof.
  induction sorted as [|b rest IH]; simpl; [reflexivity|].
  destruct (Qle_bool a.2 b.2); [reflexivity|].
  rewrite IH. apply Permutation_swap.
Qed.

Lemma sort_values_ascending_Permutation (series : list (string * Q)) :
  sort_values_ascending series ≡ₚ series.
Proof.
  induction series as [|a rest IH]; simpl; [reflexivity|].
  rewrite insert_value_Permutation, IH. reflexivity.
Qed.

Lemma insert_value_Sorted (a : string * Q) (sorted : list (string * Q)) :
  Sorted by_value sorted -> Sorted by_value (insert_value a sorted).
Proof.
  induction 1 as [|b rest Hrest IH Hhd]; simpl.
  - repeat constructor.
  - destruct (Qle_bool a.2 b.2) eqn:Hle.
    + apply Qle_bool_iff in Hle. repeat constructor; assumption.
    + assert (by_value b a) as Hba.
      { unfold by_value. apply Qlt_le_weak, Qnot_le_lt. intros Hab.
        apply Qle_bool_iff in Hab. congruence. }
      constructor; [exact IH|].
      destruct rest as [|c rest']; simpl; [constructor; exact Hba|].
      destruct (Qle_bool a.2 c.2); constructor; [exact Hba|].
      inversion Hhd. assumption.
Qed.

Lemma sort_values_ascending_Sorted (series : list (string * Q)) :
  StronglySorted by_value (sort_values_ascending series).
Proof.
  apply (Sorted.Sorted_StronglySorted by_value_trans).
  induction series as [|a rest IH]; simpl; [constructor|].
  apply insert_value_Sorted. exact IH.
Qed.

Lemma sum_bool_bounds (bs : list bool) :
  (0 <= foldr Qplus 0 (Q_of_bool <$> bs))%Q
  /\ (foldr Qplus 0 (Q_of_bool <$> bs) <= inject_Z (Z.of_nat (length bs)))%Q.
Proof.
  induction bs as [|b bs [IH0 IH1]]; simpl length; [split; discriminate|].
  change (foldr Qplus 0 (Q_of_bool <$> b :: bs))%Q
    with (Q_of_bool b + foldr Qplus 0 (Q_of_bool <$> bs))%Q.
  replace (Z.of_nat (S (length bs))) with (1 + Z.of_nat (length bs)) by lia.
  rewrite inject_Z_plus.
  assert (0 <= Q_of_bool b)%Q as Hb0 by (destruct b; discriminate).
  assert (Q_of_bool b <= inject_Z 1)%Q as Hb1 by (destruct b; discriminate).
  split.
  - change 0%Q with (0 + 0)%Q. apply Qplus_le_compat; assumption.
  - apply Qplus_le_compat; assumption.
Qed.

(** The mean of a column of booleans is between 0 and 1. *)
Lemma mean_bool_bounds (bs : list bool) :
  (0 <= mean (Q_of_bool <$> bs))%Q /\ (mean (Q_of_bool <$> bs) <= 1)%Q.
Proof.
  unfold mean. rewrite Qred_correct, length_fmap.
  destruct (sum_bool_bounds bs) as [H0 H1].
  destruct bs as [|b bs]; [split; discriminate|].
  assert (0 < inject_Z (Z.of_nat (length (b :: bs))))%Q as Hpos.
  { change 0%Q with (inject_Z 0). rewrite <- Zlt_Qlt. simpl. lia. }
  split.
  - apply Qle_shift_div_l; [exact Hpos|]. rewrite Qmult_0_l. exact H0.
  - apply Qle_shift_div_r; [exact Hpos|]. rewrite Qmult_1_l. exact H1.
Qed.

Lemma win_rate_bounds (df : list MatchFeatureRow) (c : string) :
  (0 <= win_rate df c)%Q /\ (win_rate df c <= 100)%Q.
Proof.
  unfold win_rate.
  destruct (mean_bool_bounds (win <$> filter (fun r => champion r = c) df)) as [H0 H1].
  apply percentage_bounds; assumption.
Qed.

Lemma times_100_monotone (a b : string * Q) :
  by_value a b -> by_value (a.1, Qred (a.2 * 100)) (b.1, Qred (b.2 * 100)).
Proof.
  unfold by_value. simpl. intros Hab. rewrite !Qred_correct.
  apply Qmult_le_compat_r; [exact Hab|discriminate].
Qed.

Lemma groupby_elem_of (df : list MatchFeatureRow) (c : string) (m : Q) :
  (c, m) ∈ sort_values_ascending
              ((fun c =>
                  (c, mean (Q_of_bool <$> (win <$> filter (fun r => champion r = c) df))))
               <$> categories (champion <$> df)) <->
  c ∈ champion <$> df
  /\ m = mean (Q_of_bool <$> (win <$> filter (fun r => champion r = c) df)).
Proof.
  rewrite sort_values_ascending_Permutation, list_elem_of_fmap.
  setoid_rewrite categories_elem_of. split.
  - intros [c' [[= -> ->] Hc]]. auto.
  - intros [Hc ->]. eauto.
Qed.

(** X15: on a non-empty table the chart of [show_winrate_by_champion] has
    one bar per champion, at most ten, in ascending order of win rate, each
    between 0 and 100; and the champions it leaves out have a win rate at
    least as high as every bar: under its title of the ten highest win
    rates the chart shows the ten lowest. *)
Theorem show_winrate_by_champion_bars (df : list MatchFeatureRow) (page : list widget) :
  df <> [] ->
  exists bars : list (string * Q),
    show_winrate_by_champion df page =
      (Ok tt, page ++ [Subheader "🏆 Taxa de Vitória por Campeão";
                       BarChart bars.*1 bars.*2 "Top 10 Campeões - Maior Taxa de Vitória"])
    /\ length bars = Nat.min 10 (length (unique (champion <$> df)))
    /\ NoDup bars.*1
    /\ StronglySorted by_value bars
    /\ forall c v, (c, v) ∈ bars ->
         c ∈ champion <$> df /\ v = win_rate df c
         /\ (0 <= v)%Q /\ (v <= 100)%Q
         /\ forall c', c' ∈ champion <$> df -> c' ∉ bars.*1 ->
              (v <= win_rate df c')%Q.
Proof.
  intros Hdf.
  set (means := (fun c =>
                   (c, mean (Q_of_bool <$> (win <$> filter (fun r => champion r = c) df))))
                <$> categories (champion <$> df)).
  set (sorted := sort_values_ascending means).
  exists (take 10 (times_100 sorted)).
  assert (forall c v, (c, v) ∈ times_100 (take 10 sorted) ->
            exists m, (c, m) ∈ take 10 sorted /\ v = Qred (m * 100)) as Hbar.
  { intros c v [[c0 m0] [[= -> ->] Hin]]%list_elem_of_fmap. eauto. }
  split; [|split; [|split; [|split]]].
  - unfold show_winrate_by_champion, mbind, ST_bind, bind, render, lift,
      groupby_champion_win_mean.
    rewrite column_ok by assumption. simpl. rewrite <- app_assoc. reflexivity.
  - rewrite length_take. unfold times_100. rewrite length_fmap.
    subst sorted. rewrite (Permutation_length (sort_values_ascending_Permutation _)).
    subst means. rewrite length_fmap. unfold categories.
    rewrite (Permutation_length (merge_sort_Permutation _ _)). reflexivity.
  - rewrite fmap_take. eapply sublist_NoDup; [|apply sublist_take].
    unfold times_100. rewrite <- list_fmap_compose.
    change (fst ∘ _) with (@fst string Q).
    subst sorted. rewrite sort_values_ascending_Permutation.
    subst means. rewrite <- list_fmap_compose.
    assert (forall l : list string,
              (fst ∘ (fun c =>
                 (c, mean (Q_of_bool
                             <$> (win <$> filter (fun r => champion r = c) df))))) <$> l
              = l) as ->.
    { induction l as [|u us IH]; simpl; [reflexivity|]. f_equal. exact IH. }
    apply categories_NoDup.
  - unfold times_100. rewrite <- fmap_take.
    apply (StronglySorted_fmap _ by_value by_value).
    + intros a b. apply times_100_monotone.
    + pose proof (sort_values_ascending_Sorted means) as Hsorted. fold sorted in Hsorted.
      rewrite <- (take_drop 10 sorted) in Hsorted.
      exact (StronglySorted_app_1_l _ _ _ Hsorted).
  - intros c v Hin. unfold times_100 in Hin. rewrite <- fmap_take in Hin.
    destruct (Hbar c v Hin) as (m & Hm & ->).
    assert ((c, m) ∈ sorted) as Hsorted by (apply (subseteq_take 10); exact Hm).
    apply groupby_elem_of in Hsorted as [Hc ->].
    split; [exact Hc|]. split; [reflexivity|].
    split; [apply (win_rate_bounds df c)|]. split; [apply (win_rate_bounds df c)|].
    intros c' Hc' Hout.
    assert ((c', mean (Q_of_bool <$> (win <$> filter (fun r => champion r = c') df)))
            ∈ sorted) as Hin' by (apply groupby_elem_of; auto).
    rewrite <- (take_drop 10 sorted) in Hin'.
    apply elem_of_app in Hin' as [Htake|Hdrop].
    + exfalso. apply Hout. apply list_elem_of_fmap.
      exists (c', win_rate df c'). split; [reflexivity|].
      unfold times_100. rewrite <- fmap_take. apply list_elem_of_fmap.
      eexists. split; [|exact Htake]. reflexivity.
    + pose proof (sort_values_ascending_Sorted means) as Hs. fold sorted in Hs.
      rewrite <- (take_drop 10 sorted) in Hs.
      pose proof (StronglySorted_app_1_elem_of _ _ _ _ _ Hs Hm Hdrop) as Hle.
      apply times_100_monotone in Hle. exact Hle.
Qed.

Lemma occurrences_cons (u x : string) (l : list string) :
  occurrences u (x :: l) =
    ((if bool_decide (x = u) then 1 else 0) + occurrences u l)%nat.
Proof.
  unfold occurrences. rewrite filter_cons.
  destruct (decide (x = u)) as [Heq|Hne].
  - rewrite bool_decide_eq_true_2 by assumption. reflexivity.
  - rewrite bool_decide_eq_false_2 by assumption. reflexivity.
Qed.

Lemma sum_indicator (x : string) (U : list string) :
  NoDup U -> x ∈ U ->
  sum_list_with (fun u => if bool_decide (x = u) then 1%nat else 0%nat) U = 1%nat.
Proof.
  induction 1 as [|u U Hu Hnd IH]; intros Hx; [inversion Hx|]. simpl.
  destruct (decide (x = u)) as [->|Hne].
  - rewrite bool_decide_eq_true_2 by reflexivity.
    assert (sum_list_with (fun u' => if bool_decide (u = u') then 1%nat else 0%nat) U
            = 0%nat) as ->; [|reflexivity].
    clear IH Hnd Hx. induction U as [|u' U IH]; simpl; [reflexivity|].
    rewrite bool_decide_eq_false_2.
    + apply IH. intros Hin. apply Hu. right. exact Hin.
    + intros ->. apply Hu. left.
  - rewrite bool_decide_eq_false_2 by assumption.
    apply IH. apply elem_of_cons in Hx as [Hx|Hx]; [contradiction|exact Hx].
Qed.

(** The counts of the distinct values of a column add up to its length. *)
Lemma occurrences_sum (U l : list string) :
  NoDup U -> (forall x, x ∈ l -> x ∈ U) ->
  sum_list_with (fun u => occurrences u l) U = length l.
Proof.
  intros Hnd. induction l as [|x l IH]; intros Hcover.
  - induction U as [|u U IHU]; simpl; [reflexivity|].
    apply NoDup_cons in Hnd as [_ Hnd]. rewrite (IHU Hnd); [reflexivity|].
    intros x Hx. inversion Hx.
  - assert (forall U',
              sum_list_with (fun u => occurrences u (x :: l)) U' =
                (sum_list_with (fun u => if bool_decide (x = u) then 1 else 0) U'
                 + sum_list_with (fun u => occurrences u l) U')%nat) as Hsplit.
    { induction U' as [|u U' IHU]; simpl; [reflexivity|].
      rewrite occurrences_cons, IHU. lia. }
    rewrite Hsplit, (sum_indicator x U Hnd) by (apply Hcover; left).
    rewrite IH by (intros y Hy; apply Hcover; right; exact Hy). reflexivity.
Qed.

Lemma value_counts_values {B} (f : nat -> B) (l : list string) :
  (fun cv => f cv.2) <$> value_counts l
  = (fun v => f (occurrences v l)) <$> (value_counts l).*1.
Proof.
  assert (Forall (fun cv => cv.2 = occurrences cv.1 l) (value_counts l)) as Hall.
  { apply Forall_forall. intros [v n] Hin.
    apply value_counts_elem_of in Hin as [_ ->]. reflexivity. }
  induction Hall as [|[v n] rest Hv _ IH]; simpl; [reflexivity|].
  simpl in Hv. subst n. f_equal. exact IH.
Qed.

(** X16: on a non-empty table the chart of [show_role_distribution] has
    one slice per distinct lane, worth the number of matches played in it,
    and the slices add up to the number of matches. A slice is named after
    [ROLE_MAPPING]; a lane the mapping does not have (the empty position of
    a game mode without lanes, for one) gets no name at all, where the
    scenario predictor keeps the raw value. *)
Theorem show_role_distribution_slices (df : list MatchFeatureRow) (page : list widget) :
  df <> [] ->
  exists index : list string,
    show_role_distribution df page =
      (Ok tt,
       page ++ [Subheader "📊 Distribuição de Lanes";
                PieChart ((fun lane => ROLE_MAPPING !! lane) <$> index)
                  ((fun lane => inject_Z (Z.of_nat (occurrences lane (role <$> df))))
                   <$> index)
                  "Distribuição de Lanes"])
    /\ index ≡ₚ unique (role <$> df)
    /\ sum_list_with (fun lane => occurrences lane (role <$> df)) index = length df
    /\ (forall lane,
          lane ∉ ["UTILITY"; "BOTTOM"; "TOP"; "JUNGLE"; "MIDDLE"] ->
          ROLE_MAPPING !! lane = None /\ role_name lane = lane)
    /\ (forall lane,
          lane ∈ ["UTILITY"; "BOTTOM"; "TOP"; "JUNGLE"; "MIDDLE"] ->
          ROLE_MAPPING !! lane = Some (role_name lane)).
Proof.
  intros Hdf. exists (value_counts (role <$> df)).*1.
  assert ((value_counts (role <$> df)).*1 ≡ₚ unique (role <$> df)) as Hindex.
  { unfold value_counts. rewrite sort_values_descending_Permutation.
    rewrite <- list_fmap_compose.
    assert (forall l : list string,
              (fst ∘ (fun v => (v, occurrences v (role <$> df)))) <$> l = l) as ->.
    { induction l as [|u us IH]; simpl; [reflexivity|]. f_equal. exact IH. }
    reflexivity. }
  split; [|split; [exact Hindex|split; [|split]]].
  - unfold show_role_distribution, mbind, ST_bind, bind, render, lift.
    rewrite column_ok by assumption. simpl. rewrite <- app_assoc.
    unfold index_map.
    rewrite (value_counts_values (fun n => inject_Z (Z.of_nat n))). reflexivity.
  - rewrite occurrences_sum.
    + apply length_fmap.
    + rewrite Hindex. apply NoDup_unique.
    + intros x Hx. rewrite Hindex. apply elem_of_unique. exact Hx.
  - intros lane Hout.
    assert (ROLE_MAPPING !! lane = None) as Hnone.
    { unfold ROLE_MAPPING. apply not_elem_of_list_to_map_1. exact Hout. }
    split; [exact Hnone|]. unfold role_name. rewrite Hnone. reflexivity.
  - intros lane Hin.
    repeat (apply elem_of_cons in Hin as [->|Hin]; [vm_compute; reflexivity|]).
    inversion Hin.
Qed.

Lemma render_all (ws : list widget) (page : list widget) :
  foldr (fun step rest => step;; rest) (mret tt) (render <$> ws) page
  = (Ok tt, page ++ ws).
Proof.
  revert page. induction ws as [|w ws IH]; intros page; simpl.
  - rewrite app_nil_r. reflexivity.
  - unfold mbind, ST_bind, bind, render at 1. rewrite IH, <- app_assoc. reflexivity.
Qed.

Context {sk : Sklearn}.

Lemma scenarios_elem_of (forest : classifier) (x : Frame) (df : list MatchFeatureRow)
    (p : string * string * Q) :
  p ∈ scenarios forest x df <->
  exists champ lane,
    champ ∈ top_champions df /\ lane ∈ top_roles df
    /\ p = (champ, role_name lane, scenario_percent forest x df champ lane).
Proof.
  unfold scenarios. rewrite list_elem_of_In, in_flat_map. split.
  - intros (champ & Hc & Hp). apply list_elem_of_In, list_elem_of_fmap in Hp
      as (lane & -> & Hl).
    exists champ, lane. split; [apply list_elem_of_In; exact Hc|]. auto.
  - intros (champ & lane & Hc & Hl & ->). exists champ.
    split; [apply list_elem_of_In; exact Hc|].
    apply list_elem_of_In, list_elem_of_fmap. eauto.
Qed.

(** X17: on a non-empty table, with a forest that saw both outcomes,
    [show_lane_predictions] opens one tab per distinct lane of the table,
    in order of first appearance. Every prediction is shown in the tab of a
    lane of the table; the tab of each of the two most played lanes has a
    slice for every top champion; and a lane whose display name is not that
    of a most played lane gets the message that no prediction is
    available. *)
Theorem show_lane_predictions_tabs (forest : classifier) (x_train : Frame)
    (df : list MatchFeatureRow) (page : list widget) :
  df <> [] ->
  two_classes forest ->
  let lanes := unique (role <$> df) in
  let results := scenarios forest x_train df in
  show_lane_predictions forest x_train df page =
    (Ok tt,
     page ++ [Subheader "🤖 Previsão de Chances de Vitória por Lane";
              Tabs (role_name <$> lanes)]
          ++ imap (fun i lane => InTab i (lane_content results lane)) lanes)
  /\ (forall p, p ∈ results ->
        exists lane, lane ∈ lanes /\ p ∈ filter (fun r => r.1.2 = role_name lane) results)
  /\ (forall lane champ, lane ∈ top_roles df -> champ ∈ top_champions df ->
        lane ∈ lanes
        /\ (champ, role_name lane, scenario_percent forest x_train df champ lane)
             ∈ filter (fun r => r.1.2 = role_name lane) results)
  /\ (forall lane, role_name lane ∉ role_name <$> top_roles df ->
        lane_content results lane =
          [Subheader ("Previsões para a Lane: " +:+ role_name lane);
           Write "Nenhuma previsão disponível para esta lane."]).
Proof.
  intros Hdf Hforest lanes results.
  assert (forall lane, lane ∈ top_roles df -> lane ∈ lanes) as Htop.
  { intros lane Hl. subst lanes. apply elem_of_unique.
    apply (head_index_elem_of 2). exact Hl. }
  split; [|split; [|split]].
  - unfold show_lane_predictions, mbind, ST_bind, bind, render at 1, lift.
    rewrite (predictByMostPlayed_run forest x_train df Hdf Hforest).
    rewrite column_ok by assumption. cbv beta iota.
    unfold render at 1. cbv beta iota.
    assert (forall (f : nat -> string -> widget) (l : list string),
              imap (fun i lane => render (f i lane)) l = render <$> imap f l) as ->.
    { intros f l. revert f. induction l as [|a l IH]; intros f; simpl; [reflexivity|].
      f_equal. apply IH. }
    rewrite render_all, <- !app_assoc. reflexivity.
  - intros p Hp. pose proof Hp as Hp'.
    apply scenarios_elem_of in Hp' as (champ & lane & _ & Hl & ->).
    exists lane. split; [apply Htop; exact Hl|].
    apply list_elem_of_filter. split; [reflexivity|exact Hp].
  - intros lane champ Hl Hc. split; [apply Htop; exact Hl|].
    apply list_elem_of_filter. split; [reflexivity|].
    apply scenarios_elem_of. eauto.
  - intros lane Hout. unfold lane_content. fold (role_name lane).
    assert (filter (fun r : string * string * Q => r.1.2 = role_name lane) results = [])
      as ->; [|reflexivity].
    destruct (filter (fun r : string * string * Q => r.1.2 = role_name lane) results)
      as [|p rest] eqn:Hfilter; [reflexivity|].
    assert (p ∈ filter (fun r : string * string * Q => r.1.2 = role_name lane) results)
      as Hp by (rewrite Hfilter; left).
    apply list_elem_of_filter in Hp as [Heq Hp].
    apply scenarios_elem_of in Hp as (champ & lane' & _ & Hl' & ->). simpl in Heq.
    exfalso. apply Hout. rewrite <- Heq. apply list_elem_of_fmap. eauto.
Qed.

End Charts.

(** ** The further properties on the sample data *)

Section MoreWitnesses.
Import api_utils data_processing api_lookup model visualization streamlit credits Spec.

Lemma processMatches_effects_witness :
  exists df w',
    processMatches (net := Sample.riot) Sample.target Sample.ids World.init = (Ok df, w')
    /\ World.requests_made w' = (World.requests_made World.init + length Sample.ids)%nat
    /\ World.slept w' =
         (World.slept World.init
          + answered_from (net := Sample.riot) (World.requests_made World.init) Sample.ids)%nat
    /\ (World.slept w' <= World.slept World.init + length Sample.ids)%nat
    /\ World.st_errors w' =
         World.st_errors World.init
           ++ failures_from (net := Sample.riot) (World.requests_made World.init) Sample.ids
    /\ World.stdout w' =
         World.stdout World.init
           ++ failures_from (net := Sample.riot) (World.requests_made World.init) Sample.ids.
Proof.
  apply (processMatches_effects (net := Sample.riot) Sample.target Sample.ids World.init).
  vm_compute. repeat constructor.
Defined.

Lemma processMatches_aborts_witness :
  exists w',
    processMatches (net := Sample.faulty) Sample.target Sample.ids World.init
      = (Raise (KeyError "championName"), w')
    /\ World.progress_reports w' =
         World.progress_reports World.init ++ (fraction (length Sample.ids) <$> seq 0 2)
    /\ World.requests_made w' = S (World.requests_made World.init + 2).
Proof.
  apply (processMatches_aborts (net := Sample.faulty) Sample.target Sample.ids 2 "BR1_3"
           (KeyError "championName") World.init).
  - reflexivity.
  - vm_compute. repeat constructor.
  - vm_compute. reflexivity.
Defined.

Lemma processMatches_repeatable_witness :
  (processMatches (net := Sample.steady) Sample.target Sample.ids World.init).1
  = (processMatches (net := Sample.steady) Sample.target Sample.ids
       Sample.after_one_request).1.
Proof.
  apply (processMatches_repeatable (net := Sample.steady) Sample.target Sample.ids
           World.init Sample.after_one_request).
  intros n url. reflexivity.
Defined.

Lemma kda_bounds_witness :
  (0 <= data_processing.kda Sample.ahri_row)%Q
  /\ (data_processing.kda Sample.ahri_row <= inject_Z (2 + 2))%Q.
Proof.
  apply (kda_bounds Sample.ahri Sample.played Sample.ahri_row 2 0 2).
  - vm_compute. reflexivity.
  - reflexivity.
  - reflexivity.
  - reflexivity.
  - lia.
  - lia.
  - lia.
Defined.

Lemma first_blood_flag_witness :
  (Sample.ahri_fields !! "firstBloodKill" = None ->
   data_processing.first_blood Sample.ahri_row = 0)
  /\ (forall b, Sample.ahri_fields !! "firstBloodKill" = Some (JBool b) ->
        data_processing.first_blood Sample.ahri_row = if b then 1 else 0)
  /\ (forall z, Sample.ahri_fields !! "firstBloodKill" = Some (JInt z) ->
        data_processing.first_blood Sample.ahri_row = z).
Proof.
  apply (first_blood_flag Sample.ahri_fields Sample.played
           Sample.ahri_row).
  vm_compute. reflexivity.
Defined.

Lemma getPUUID_cached_witness :
  let s := Sample.session World.init in
  let s1 := (getPUUID (net := Sample.steady) "Faker" "KR1" s).2 in
  getPUUID (net := Sample.steady) "Faker" "KR1" s1 = (Ok Sample.played, s1)
  /\ puuid_cache s1 !! ("Faker", "KR1") = Some Sample.played
  /\ (World.requests_made (world s1) <= S (World.requests_made (world s)))%nat.
Proof.
  apply (getPUUID_cached (net := Sample.steady) "Faker" "KR1"
           (Sample.session World.init)
           (getPUUID (net := Sample.steady) "Faker" "KR1" (Sample.session World.init)).2
           Sample.played).
  vm_compute. reflexivity.
Defined.

Lemma getPUUID_keeps_error_answers_witness :
  exists s1,
    getPUUID (net := Sample.riot) "Faker" "KR1" (Sample.session Sample.after_two_requests)
      = (Ok (Sample.dict []), s1)
    /\ World.slept (world s1) = World.slept Sample.after_two_requests
    /\ World.st_errors (world s1) = World.st_errors Sample.after_two_requests
    /\ World.requests_made (world s1) = S (World.requests_made Sample.after_two_requests)
    /\ getPUUID (net := Sample.riot) "Faker" "KR1" s1 = (Ok (Sample.dict []), s1).
Proof.
  apply (getPUUID_keeps_error_answers (net := Sample.riot) "Faker" "KR1"
           (Sample.session Sample.after_two_requests) Sample.refusal (Sample.dict [])).
  - reflexivity.
  - reflexivity.
  - reflexivity.
Defined.

Lemma getPUUID_failure_propagates_witness :
  exists e s1,
    getPUUID (net := Sample.riot) "Faker" "KR1" (Sample.session Sample.after_one_request)
      = (Raise (RequestException e), s1)
    /\ s1 = with_world (World.count_request Sample.after_one_request)
              (Sample.session Sample.after_one_request)
    /\ puuid_cache s1 !! ("Faker", "KR1") = None
    /\ e = Timeout.
Proof.
  apply (getPUUID_failure_propagates (net := Sample.riot) "Faker" "KR1"
           (Sample.session Sample.after_one_request)).
  - reflexivity.
  - intros r Hr. simpl in Hr. discriminate.
Defined.

Lemma getMatches_cached_witness :
  let s := Sample.session World.init in
  let s1 := (getMatches (net := Sample.steady) Sample.target 20 s).2 in
  getMatches (net := Sample.steady) Sample.target 20 s1 = (Ok Sample.played, s1)
  /\ (forall key, key <> (Sample.target, 20) ->
        matches_cache s1 !! key = matches_cache s !! key)
  /\ puuid_cache s1 = puuid_cache s.
Proof.
  apply (getMatches_cached (net := Sample.steady) Sample.target 20
           (Sample.session World.init)
           (getMatches (net := Sample.steady) Sample.target 20 (Sample.session World.init)).2
           Sample.played).
  vm_compute. reflexivity.
Defined.

Lemma predictByMostPlayed_one_class_witness :
  predictByMostPlayed (sk := Sample.one_sided) tt
    {| columns := Sample.schema; rows := [] |} Sample.df = Raise IndexError.
Proof.
  apply (predictByMostPlayed_one_class (sk := Sample.one_sided) tt
           {| columns := Sample.schema; rows := [] |} Sample.df).
  - discriminate.
  - intros entry. exists 1%Q. reflexivity.
Defined.

Lemma trainModel_needs_two_rows_witness :
  exists e,
    trainModel (sk := Sample.sklearn) Sample.lone 7%nat = (Raise e, 7%nat)
    /\ (Sample.lone = [] -> exists key, e = KeyError key)
    /\ (Sample.lone <> [] -> e = ValueError).
Proof.
  apply (trainModel_needs_two_rows (sk := Sample.sklearn) Sample.lone 7%nat).
  simpl. lia.
Defined.

Lemma trainModel_partition_witness :
  exists forest x_train x_test y_train y_test df_encoded x y,
    trainModel (sk := Sample.sklearn) Sample.df 7%nat
      = (Ok (forest, x_train, x_test, y_train, y_test, df_encoded), 7%nat)
    /\ drop_column "win" df_encoded = Ok x
    /\ get_column "win" df_encoded = Ok y
    /\ y = (fun r => Q_of_bool (win r)) <$> Sample.df
    /\ columns x_train = columns x /\ columns x_test = columns x
    /\ ("win" ∉ columns x)
    /\ (zip (rows x_train) y_train ++ zip (rows x_test) y_test) ≡ₚ zip (rows x) y.
Proof.
  apply (trainModel_partition (sk := Sample.sklearn) Sample.df 7%nat).
  simpl. lia.
Defined.

Lemma show_winrate_by_champion_bars_witness :
  exists bars : list (string * Q),
    show_winrate_by_champion Sample.df [] =
      (Ok tt, [] ++ [Subheader "🏆 Taxa de Vitória por Campeão";
                     BarChart bars.*1 bars.*2 "Top 10 Campeões - Maior Taxa de Vitória"])
    /\ length bars = Nat.min 10 (length (unique (champion <$> Sample.df)))
    /\ NoDup bars.*1
    /\ StronglySorted by_value bars
    /\ forall c v, (c, v) ∈ bars ->
         c ∈ champion <$> Sample.df /\ v = win_rate Sample.df c
         /\ (0 <= v)%Q /\ (v <= 100)%Q
         /\ forall c', c' ∈ champion <$> Sample.df -> c' ∉ bars.*1 ->
              (v <= win_rate Sample.df c')%Q.
Proof.
  apply (show_winrate_by_champion_bars Sample.df []). discriminate.
Defined.

Lemma show_role_distribution_slices_witness :
  exists index : list string,
    show_role_distribution Sample.df [] =
      (Ok tt,
       [] ++ [Subheader "📊 Distribuição de Lanes";
              PieChart ((fun lane => ROLE_MAPPING !! lane) <$> index)
                ((fun lane => inject_Z (Z.of_nat (occurrences lane (role <$> Sample.df))))
                 <$> index)
                "Distribuição de Lanes"])
    /\ index ≡ₚ unique (role <$> Sample.df)
    /\ sum_list_with (fun lane => occurrences lane (role <$> Sample.df)) index
       = length Sample.df
    /\ (forall lane,
          lane ∉ ["UTILITY"; "BOTTOM"; "TOP"; "JUNGLE"; "MIDDLE"] ->
          ROLE_MAPPING !! lane = None /\ role_name lane = lane)
    /\ (forall lane,
          lane ∈ ["UTILITY"; "BOTTOM"; "TOP"; "JUNGLE"; "MIDDLE"] ->
          ROLE_MAPPING !! lane = Some (role_name lane)).
Proof.
  apply (show_role_distribution_slices Sample.df []). discriminate.
Defined.

Lemma show_lane_predictions_tabs_witness :
  let x_train := {| columns := Sample.schema; rows := [] |} in
  let lanes := unique (role <$> Sample.df) in
  let results := scenarios (sk := Sample.sklearn) tt x_train Sample.df in
  show_lane_predictions (sk := Sample.sklearn) tt x_train Sample.df [] =
    (Ok tt,
     [] ++ [Subheader "🤖 Previsão de Chances de Vitória por Lane";
            Tabs (role_name <$> lanes)]
        ++ imap (fun i lane => InTab i (lane_content results lane)) lanes)
  /\ (forall p, p ∈ results ->
        exists lane, lane ∈ lanes /\ p ∈ filter (fun r => r.1.2 = role_name lane) results)
  /\ (forall lane champ, lane ∈ top_roles Sample.df -> champ ∈ top_champions Sample.df ->
        lane ∈ lanes
        /\ (champ, role_name lane,
            scenario_percent (sk := Sample.sklearn) tt x_train Sample.df champ lane)
             ∈ filter (fun r => r.1.2 = role_name lane) results)
  /\ (forall lane, role_name lane ∉ role_name <$> top_roles Sample.df ->
        lane_content results lane =
          [Subheader ("Previsões para a Lane: " +:+ role_name lane);
           Write "Nenhuma previsão disponível para esta lane."]).
Proof.
  apply (show_lane_predictions_tabs (sk := Sample.sklearn) tt
           {| columns := Sample.schema; rows := [] |} Sample.df []).
  - discriminate.
  - intros entry. exists (1 # 4)%Q, (3 # 4)%Q. repeat split; discriminate.
Defined.

Lemma credits_toggle_twice_witness :
  let run1 := display_credits_if_active Sample.open_click Sample.blank in
  let run2 := display_credits_if_active Sample.open_click run1.2 in
  truthy (show_credits run2.2) = truthy (show_credits Sample.blank)
  /\ credits_shown Sample.open_click run1.2
     = negb (credits_shown Sample.open_click Sample.blank)
  /\ run1.1 = Returns /\ run2.1 = Returns.
Proof.
  apply (credits_toggle_twice Sample.open_click Sample.open_click Sample.blank);
    reflexivity.
Defined.

Lemma credits_close_witness :
  let run := display_credits_if_active Sample.close_click Sample.opened in
  let next :=
    display_credits_if_active {| credit_btn := false; close_credits_btn := false |}
      {| page := []; session_state := session_state run.2 |} in
  run.1 = Reruns
  /\ truthy (show_credits run.2) = false
  /\ next.1 = Returns
  /\ page next.2 = [] ++ [Markdown "credit_btn_css"; Button "credit_btn"]
  /\ truthy (show_credits next.2) = false.
Proof.
  apply (credits_close Sample.close_click Sample.opened []).
  - vm_compute. reflexivity.
  - reflexivity.
Defined.

End MoreWitnesses.
